(** * MarqueeSelection ("marching ants"): a model of [src/index.ts]

    The development follows the TypeScript class [MarqueeSelection]:
    its constructor, [resize], [update], the [autoUpdate] accessor pair
    and [destroy].  The host library (PixiJS) is represented by small
    records that carry exactly the fields the class reads or writes.

    Numbers.  A JavaScript [number] is modelled as an exact rational or
    [NaN].  The class only uses [+], [*], unary [-] and [%]; on exact
    rationals those never leave the rationals except for [x % 0], which
    JavaScript evaluates to [NaN].  Unary [-] and [%] are exact in
    binary64 as well; [+] and [*] round there, and may overflow.  The
    results below either use no law of [+] and [*], or ask that the sum
    in question be exact; where rounding decides a question, the layout
    is evaluated in binary64 itself (see "The layout in binary64"). *)

From Stdlib Require Import QArith Qround Qminmax ZArith List Bool Lia Lqa.
From Stdlib Require Import Floats.
Import ListNotations.

Local Open Scope Q_scope.

(** ** JavaScript numbers *)

Inductive number : Type :=
| Fin (q : Q)
| NaN.

(** [a + b] and [a * b], without the rounding and the overflow of
    binary64: they are the program's sum and product wherever those are
    exact. *)
Definition num_add (a b : number) : number :=
  match a, b with
  | Fin x, Fin y => Fin (x + y)
  | _, _ => NaN
  end.

Definition num_mul (a b : number) : number :=
  match a, b with
  | Fin x, Fin y => Fin (x * y)
  | _, _ => NaN
  end.

Definition num_neg (a : number) : number :=
  match a with
  | Fin x => Fin (- x)
  | NaN => NaN
  end.

(** Rounding toward zero, the integer quotient that [%] subtracts. *)
Definition Qtrunc (q : Q) : Z :=
  if Qle_bool 0 q then Qfloor q else Qceiling q.

(** [a % b] on finite operands: [a - b * trunc (a / b)], and [NaN] when
    the divisor is zero.  The result carries the sign of the dividend. *)
Definition Qrem (a b : Q) : number :=
  if Qeq_bool b 0 then NaN
  else Fin (a - b * inject_Z (Qtrunc (a / b))).

Definition num_rem (a b : number) : number :=
  match a, b with
  | Fin x, Fin y => Qrem x y
  | _, _ => NaN
  end.

(** Sameness of two numbers up to the representation of the rational. *)
Definition num_same (a b : number) : Prop :=
  match a, b with
  | Fin x, Fin y => x == y
  | NaN, NaN => True
  | _, _ => False
  end.

Infix "=n=" := num_same (at level 70, no associativity).

(** The mathematical modulo the specification speaks of: the
    representative of [a] modulo [p] obtained with the floor quotient. *)
Definition math_mod (a p : Q) : Q := a - p * inject_Z (Qfloor (a / p)).

(** ** The host library

    Only what [MarqueeSelection] touches is represented: points, the 2D
    canvas the dash texture is drawn on, textures, tiling sprites and
    the shared ticker. *)

(** A colour as PixiJS's [Color] resolves a [ColorSource]: the channels
    that [toRgbaString] prints. *)
Record Rgba : Type := mkRgba {
  red : Z;
  green : Z;
  blue : Z;
  alpha : Q
}.

Definition white : Rgba := mkRgba 255 255 255 1.
Definition black : Rgba := mkRgba 0 0 0 1.

Record Point : Type := mkPoint {
  px : number;
  py : number
}.

Definition origin : Point := mkPoint (Fin 0) (Fin 0).

(** [point.set(x, y)] *)
Definition point_set (x y : number) (_ : Point) : Point := mkPoint x y.

(** One [fillRect] call, with the [fillStyle] in force when it ran. *)
Record FillRect : Type := mkFillRect {
  fr_style : Rgba;
  fr_x : number;
  fr_y : number;
  fr_w : number;
  fr_h : number
}.

(** [canvas.width = x].  The attribute is an unsigned long: the number
    is truncated toward zero and taken modulo 2^32 ([NaN] reads as 0),
    and a result above 2^31 - 1 is replaced by the attribute's default. *)
Definition to_unsigned_long (x : number) : Z :=
  match x with
  | Fin q => (Qtrunc q mod 4294967296)%Z
  | NaN => 0%Z
  end.

Definition canvas_size (default : Z) (x : number) : Z :=
  let n := to_unsigned_long x in
  if (n >? 2147483647)%Z then default else n.

(** A canvas is its size in pixels, its current [fillStyle] and the
    fills issued so far, oldest first.  A new canvas is transparent
    everywhere. *)
Record Canvas : Type := mkCanvas {
  cv_width : Z;
  cv_height : Z;
  cv_fillStyle : Rgba;
  cv_fills : list FillRect
}.

(** [DOMAdapter.get().createCanvas(w, h)] with the browser adapter: a
    canvas element whose [width] and [height] are then assigned; their
    defaults are 300 and 150. *)
Definition createCanvas (w h : number) : Canvas :=
  mkCanvas (canvas_size 300 w) (canvas_size 150 h) black [].

Definition set_fillStyle (c : Rgba) (cv : Canvas) : Canvas :=
  mkCanvas (cv_width cv) (cv_height cv) c (cv_fills cv).

Definition fillRect (x y w h : number) (cv : Canvas) : Canvas :=
  mkCanvas (cv_width cv) (cv_height cv) (cv_fillStyle cv)
           (cv_fills cv ++ [mkFillRect (cv_fillStyle cv) x y w h]).

(** How much of the unit interval that starts at the integer [i] lies
    on the span from [a] to [a + len]; a span given by a number that is
    not finite is empty.  These are lengths on the plane, not sums of
    the program. *)
Definition span_overlap (a len : number) (i : Z) : Q :=
  match a, len with
  | Fin a, Fin len =>
      Qmax 0 (Qmin (Qmax a (a + len)) (inject_Z i + 1)
              - Qmax (Qmin a (a + len)) (inject_Z i))
  | _, _ => 0
  end.

(** The share of the pixel in column [i] and row [j] that a fill
    covers. *)
Definition coverage (f : FillRect) (i j : Z) : Q :=
  span_overlap (fr_x f) (fr_w f) i * span_overlap (fr_y f) (fr_h f) j.

(** A pixel: three colour channels and an alpha between 0 and 1, before
    they are stored as bytes. *)
Record Pixel : Type := mkPixel {
  p_red : Q;
  p_green : Q;
  p_blue : Q;
  p_alpha : Q
}.

Definition transparent : Pixel := mkPixel 0 0 0 0.

(** A fill drawn over a pixel: the fill's colour, weakened by the share
    of the pixel it covers, composited source-over. *)
Definition over (f : FillRect) (i j : Z) (dst : Pixel) : Pixel :=
  let c := fr_style f in
  let a_src := alpha c * coverage f i j in
  let a_dst := p_alpha dst * (1 - a_src) in
  let a_out := a_src + a_dst in
  if Qeq_bool a_out 0 then transparent
  else mkPixel ((inject_Z (red c) * a_src + p_red dst * a_dst) / a_out)
               ((inject_Z (green c) * a_src + p_green dst * a_dst) / a_out)
               ((inject_Z (blue c) * a_src + p_blue dst * a_dst) / a_out)
               a_out.

(** The pixel in column [i] and row [j], when the canvas has one
    there. *)
Definition canvas_pixel (cv : Canvas) (i j : Z) : option Pixel :=
  if ((0 <=? i) && (i <? cv_width cv) && (0 <=? j) && (j <? cv_height cv))%Z
  then Some (fold_left (fun px f => over f i j px) (cv_fills cv) transparent)
  else None.

(** A pixel fully painted with the colour [c]. *)
Definition opaque_pixel (c : Rgba) (px : option Pixel) : Prop :=
  match px with
  | Some p =>
      p_alpha p == 1 /\ p_red p == inject_Z (red c) /\
      p_green p == inject_Z (green c) /\ p_blue p == inject_Z (blue c)
  | None => False
  end.

(** A pixel with no paint at all. *)
Definition transparent_pixel (px : option Pixel) : Prop :=
  match px with
  | Some p => p_alpha p == 0
  | None => False
  end.

Inductive ScaleMode : Type := Linear | Nearest.

(** A texture source: the canvas it wraps and how it is sampled. *)
Record TextureSource : Type := mkTextureSource {
  resource : Canvas;
  scaleMode : ScaleMode
}.

(** A texture refers to its source until it is destroyed together with
    it. *)
Record Texture : Type := mkTexture {
  source : option TextureSource;
  tex_destroyed : bool
}.

(** [Texture.from(canvas)] *)
Definition Texture_from (cv : Canvas) : Texture :=
  mkTexture (Some (mkTextureSource cv Linear)) false.

(** Textures live in a store and are referred to by their index, so the
    four strips and the node can share one. *)
Definition TextureRef : Type := nat.

Fixpoint store_update (h : TextureRef) (f : Texture -> Texture)
         (st : list Texture) : list Texture :=
  match st, h with
  | [], _ => []
  | t :: rest, O => f t :: rest
  | t :: rest, S h' => t :: store_update h' f rest
  end.

Record TilingSprite : Type := mkTilingSprite {
  roundPixels : bool;
  texture : TextureRef;
  position : Point;
  ts_width : number;
  ts_height : number;
  tilePosition : Point;
  ts_destroyed : bool
}.

(** [new TilingSprite({ roundPixels, texture, width, height })] *)
Definition new_TilingSprite (rp : bool) (tex : TextureRef) (w h : number)
  : TilingSprite :=
  mkTilingSprite rp tex origin w h origin false.

Definition set_position (p : Point) (s : TilingSprite) : TilingSprite :=
  mkTilingSprite (roundPixels s) (texture s) p (ts_width s) (ts_height s)
                 (tilePosition s) (ts_destroyed s).

(** [sprite.position.set(x, y)] *)
Definition move_to (x y : number) (s : TilingSprite) : TilingSprite :=
  set_position (point_set x y (position s)) s.

Definition set_width (w : number) (s : TilingSprite) : TilingSprite :=
  mkTilingSprite (roundPixels s) (texture s) (position s) w (ts_height s)
                 (tilePosition s) (ts_destroyed s).

Definition set_height (h : number) (s : TilingSprite) : TilingSprite :=
  mkTilingSprite (roundPixels s) (texture s) (position s) (ts_width s) h
                 (tilePosition s) (ts_destroyed s).

Definition set_tilePosition (p : Point) (s : TilingSprite) : TilingSprite :=
  mkTilingSprite (roundPixels s) (texture s) (position s) (ts_width s)
                 (ts_height s) p (ts_destroyed s).

Definition set_tile_x (v : number) (s : TilingSprite) : TilingSprite :=
  set_tilePosition (mkPoint v (py (tilePosition s))) s.

Definition set_tile_y (v : number) (s : TilingSprite) : TilingSprite :=
  set_tilePosition (mkPoint (px (tilePosition s)) v) s.

(** [sprite.destroy()] without options: the sprite is marked destroyed;
    its texture is left alone. *)
Definition sprite_destroy (s : TilingSprite) : TilingSprite :=
  mkTilingSprite (roundPixels s) (texture s) (position s) (ts_width s)
                 (ts_height s) (tilePosition s) true.

(** The four edges of the border. *)
Inductive Edge : Type := Top | Left | Right | Bottom.

Definition Edge_eqb (a b : Edge) : bool :=
  match a, b with
  | Top, Top | Left, Left | Right, Right | Bottom, Bottom => true
  | _, _ => false
  end.

(** A listener of [Ticker.shared] is a callback with its context.
    [ThisUpdate] is the pair [(this.update, this)] of the node under
    study; every other pair is [Foreign], and is taken to return without
    touching the node. *)
Inductive Listener : Type :=
| ThisUpdate
| Foreign (k : nat).

Definition is_this (l : Listener) : bool :=
  match l with
  | ThisUpdate => true
  | Foreign _ => false
  end.

(** [Ticker.add] appends a listener without looking for duplicates;
    [Ticker.remove] drops every listener that matches. *)
Definition Ticker_add (l : Listener) (t : list Listener) : list Listener :=
  t ++ [l].

Definition Ticker_remove (t : list Listener) : list Listener :=
  filter (fun l => negb (is_this l)) t.

(** How many times the node's [update] is registered. *)
Definition registrations (t : list Listener) : nat :=
  length (filter is_this t).

(** ** The node and its surroundings *)

(** The object [this].  The first three fields are the part of the base
    [Container] the class relies on; the others are the class's own.  A
    field holding [undefined] is [None]. *)
Record MarqueeSelection : Type := mkMarqueeSelection {
  visible : bool;
  children : list Edge;
  destroyed : bool;
  thickness : number;
  dash : number;
  dashSpace : number;
  speed : number;
  _topLine : option TilingSprite;
  _leftLine : option TilingSprite;
  _rightLine : option TilingSprite;
  _bottomLine : option TilingSprite;
  _texture : option TextureRef;
  _autoUpdate : bool;
  _currentTime : number
}.

(** The state a method runs in: the node, the texture store and the
    listeners of [Ticker.shared]. *)
Record State : Type := mkState {
  this : MarqueeSelection;
  textures : list Texture;
  ticker : list Listener
}.

Inductive Error : Type := TypeError.

Inductive Outcome (A : Type) : Type :=
| Returned (a : A)
| Threw (e : Error).

Arguments Returned {A} a.
Arguments Threw {A} e.

(** A method body: it transforms the state and either returns or throws.
    What was written before a throw stays written. *)
Definition M (A : Type) : Type := State -> Outcome A * State.

Definition ret {A} (a : A) : M A := fun s => (Returned a, s).

Definition bind {A B} (m : M A) (k : A -> M B) : M B :=
  fun s =>
    match m s with
    | (Returned a, s') => k a s'
    | (Threw e, s') => (Threw e, s')
    end.

Definition throw {A} (e : Error) : M A := fun s => (Threw e, s).

Notation "x <- m ;; k" := (bind m (fun x => k))
  (at level 61, m at next level, right associativity).
Notation "m ;; k" := (bind m (fun _ => k))
  (at level 61, right associativity).

(** Reading a field of [this]. *)
Definition get {A} (field : MarqueeSelection -> A) : M A :=
  fun s => (Returned (field (this s)), s).

(** Writing [this] as a whole; the field writers below go through it. *)
Definition modify_this (f : MarqueeSelection -> MarqueeSelection) : M unit :=
  fun s => (Returned tt, mkState (f (this s)) (textures s) (ticker s)).

Definition modify_textures (f : list Texture -> list Texture) : M unit :=
  fun s => (Returned tt, mkState (this s) (f (textures s)) (ticker s)).

Definition modify_ticker (f : list Listener -> list Listener) : M unit :=
  fun s => (Returned tt, mkState (this s) (textures s) (f (ticker s))).

Definition strip (e : Edge) (n : MarqueeSelection) : option TilingSprite :=
  match e with
  | Top => _topLine n
  | Left => _leftLine n
  | Right => _rightLine n
  | Bottom => _bottomLine n
  end.

Definition put_strip (e : Edge) (v : option TilingSprite)
           (n : MarqueeSelection) : MarqueeSelection :=
  mkMarqueeSelection
    (visible n) (children n) (destroyed n)
    (thickness n) (dash n) (dashSpace n) (speed n)
    (match e with Top => v | _ => _topLine n end)
    (match e with Left => v | _ => _leftLine n end)
    (match e with Right => v | _ => _rightLine n end)
    (match e with Bottom => v | _ => _bottomLine n end)
    (_texture n) (_autoUpdate n) (_currentTime n).

Definition put_texture (v : option TextureRef) (n : MarqueeSelection)
  : MarqueeSelection :=
  mkMarqueeSelection
    (visible n) (children n) (destroyed n)
    (thickness n) (dash n) (dashSpace n) (speed n)
    (_topLine n) (_leftLine n) (_rightLine n) (_bottomLine n)
    v (_autoUpdate n) (_currentTime n).

Definition put_autoUpdate (v : bool) (n : MarqueeSelection)
  : MarqueeSelection :=
  mkMarqueeSelection
    (visible n) (children n) (destroyed n)
    (thickness n) (dash n) (dashSpace n) (speed n)
    (_topLine n) (_leftLine n) (_rightLine n) (_bottomLine n)
    (_texture n) v (_currentTime n).

Definition put_currentTime (v : number) (n : MarqueeSelection)
  : MarqueeSelection :=
  mkMarqueeSelection
    (visible n) (children n) (destroyed n)
    (thickness n) (dash n) (dashSpace n) (speed n)
    (_topLine n) (_leftLine n) (_rightLine n) (_bottomLine n)
    (_texture n) (_autoUpdate n) v.

Definition put_visible (v : bool) (n : MarqueeSelection)
  : MarqueeSelection :=
  mkMarqueeSelection
    v (children n) (destroyed n)
    (thickness n) (dash n) (dashSpace n) (speed n)
    (_topLine n) (_leftLine n) (_rightLine n) (_bottomLine n)
    (_texture n) (_autoUpdate n) (_currentTime n).

Definition put_children (v : list Edge) (n : MarqueeSelection)
  : MarqueeSelection :=
  mkMarqueeSelection
    (visible n) v (destroyed n)
    (thickness n) (dash n) (dashSpace n) (speed n)
    (_topLine n) (_leftLine n) (_rightLine n) (_bottomLine n)
    (_texture n) (_autoUpdate n) (_currentTime n).

Definition put_destroyed (v : bool) (n : MarqueeSelection)
  : MarqueeSelection :=
  mkMarqueeSelection
    (visible n) (children n) v
    (thickness n) (dash n) (dashSpace n) (speed n)
    (_topLine n) (_leftLine n) (_rightLine n) (_bottomLine n)
    (_texture n) (_autoUpdate n) (_currentTime n).

(** [this._xLine.<something> = ...]: reading a property of the strip
    an edge field refers to throws when the field holds [undefined];
    otherwise the strip object is changed in place. *)
Definition on_strip (e : Edge) (f : TilingSprite -> TilingSprite) : M unit :=
  l <- get (strip e) ;;
  match l with
  | None => throw TypeError
  | Some sp => modify_this (put_strip e (Some (f sp)))
  end.

(** [this._texture.<something>] resolves the same way. *)
Definition the_texture : M TextureRef :=
  t <- get _texture ;;
  match t with
  | None => throw TypeError
  | Some h => ret h
  end.

(** ** The class *)

(** The constructor's option bag.  An absent option is [None] and takes
    the default of the destructuring pattern.  [o_visible] stands for
    the part of [...rest] handed to the base [Container]. *)
Record MarqueeSelectionOptions : Type := mkOptions {
  o_thickness : option number;
  o_color : option Rgba;
  o_dash : option number;
  o_dashSpace : option number;
  o_speed : option number;
  o_width : option number;
  o_height : option number;
  o_autoUpdate : option bool;
  o_visible : option bool
}.

Definition no_options : MarqueeSelectionOptions :=
  mkOptions None None None None None None None None None.

Definition default {A} (d : A) (o : option A) : A :=
  match o with
  | Some a => a
  | None => d
  end.

(** [resize(width, height)] *)
Definition resize (width height : number) : M unit :=
  l <- get thickness ;;
  on_strip Top (move_to (num_neg l) (num_neg l)) ;;
  on_strip Left (move_to (num_neg l) (Fin 0)) ;;
  on_strip Right (move_to width (Fin 0)) ;;
  on_strip Bottom (move_to (num_neg l) height) ;;
  on_strip Top (set_width (num_add width (num_mul l (Fin 2)))) ;;
  on_strip Bottom (set_width (num_add width (num_mul l (Fin 2)))) ;;
  on_strip Left (set_height height) ;;
  on_strip Right (set_height height).

(** [update()] *)
Definition update : M unit :=
  v <- get visible ;;
  if v then
    t0 <- get _currentTime ;;
    sp <- get speed ;;
    modify_this (put_currentTime (num_add t0 sp)) ;;
    d <- get dash ;;
    ds <- get dashSpace ;;
    let size := num_add d ds in
    t <- get _currentTime ;;
    on_strip Top (set_tile_x (num_rem t size)) ;;
    t <- get _currentTime ;;
    on_strip Bottom (set_tile_x (num_rem (num_neg t) size)) ;;
    t <- get _currentTime ;;
    on_strip Left (set_tile_y (num_rem (num_neg t) size)) ;;
    t <- get _currentTime ;;
    on_strip Right (set_tile_y (num_rem t size))
  else ret tt.

(** [get autoUpdate()] *)
Definition get_autoUpdate : M bool := get _autoUpdate.

(** [set autoUpdate(value)] *)
Definition set_autoUpdate (value : bool) : M unit :=
  modify_this (put_autoUpdate value) ;;
  modify_ticker Ticker_remove ;;
  if value then modify_ticker (Ticker_add ThisUpdate) else ret tt.

(** The object as [super(rest)] and the field initialisers leave it.
    The four readonly numbers are not assigned yet. *)
Definition fresh (o : MarqueeSelectionOptions) : MarqueeSelection :=
  mkMarqueeSelection
    (default true (o_visible o)) [] false
    NaN NaN NaN NaN
    None None None None
    None true (Fin 0).

Definition assign_options (t d ds sp : number) (n : MarqueeSelection)
  : MarqueeSelection :=
  mkMarqueeSelection
    (visible n) (children n) (destroyed n)
    t d ds sp
    (_topLine n) (_leftLine n) (_rightLine n) (_bottomLine n)
    (_texture n) (_autoUpdate n) (_currentTime n).

(** Allocation of a texture in the store; the new reference is
    returned. *)
Definition alloc_texture (t : Texture) : M TextureRef :=
  fun s => (Returned (length (textures s)),
            mkState (this s) (textures s ++ [t]) (ticker s)).

(** [texture.source.scaleMode = m] *)
Definition set_scaleMode (m : ScaleMode) (t : Texture) : Texture :=
  mkTexture (option_map (fun src => mkTextureSource (resource src) m)
                        (source t))
            (tex_destroyed t).

(** The constructor body, run on the [fresh] object. *)
Definition constructor (o : MarqueeSelectionOptions) : M unit :=
  let thickness := default (Fin 2) (o_thickness o) in
  let color := default white (o_color o) in
  let dash := default (Fin 2) (o_dash o) in
  let dashSpace := default (Fin 2) (o_dashSpace o) in
  let speed := default (Fin (1 # 5)) (o_speed o) in
  let width := default (Fin 100) (o_width o) in
  let height := default (Fin 100) (o_height o) in
  let autoUpdate := default true (o_autoUpdate o) in
  modify_this (assign_options thickness dash dashSpace speed) ;;
  let canvas := createCanvas (num_add dash dashSpace)
                             (num_add dash dashSpace) in
  let canvas := set_fillStyle color canvas in
  let canvas := fillRect (Fin 0) (Fin 0) dash dash canvas in
  texture <- alloc_texture (Texture_from canvas) ;;
  modify_this (put_texture (Some texture)) ;;
  modify_textures (store_update texture (set_scaleMode Nearest)) ;;
  modify_this (put_strip Top
    (Some (new_TilingSprite true texture width thickness))) ;;
  modify_this (put_strip Left
    (Some (new_TilingSprite true texture thickness height))) ;;
  modify_this (put_strip Right
    (Some (new_TilingSprite true texture thickness height))) ;;
  modify_this (put_strip Bottom
    (Some (new_TilingSprite true texture width thickness))) ;;
  resize width height ;;
  modify_this (put_children [Top; Left; Right; Bottom]) ;;
  set_autoUpdate autoUpdate.

(** [new MarqueeSelection(o)] in a host whose texture store is [texs]
    and whose shared ticker holds [tk]. *)
Definition new_MarqueeSelection (o : MarqueeSelectionOptions)
           (texs : list Texture) (tk : list Listener)
  : Outcome unit * State :=
  constructor o (mkState (fresh o) texs tk).

(** [texture.destroy(true)]: the source is destroyed with the texture,
    which keeps no reference to it. *)
Definition Texture_destroy (t : Texture) : Texture :=
  mkTexture None true.

(** [this._xLine.destroy()]: the strip is destroyed and leaves its
    parent. *)
Definition destroy_strip (e : Edge) : M unit :=
  on_strip e sprite_destroy ;;
  c <- get children ;;
  modify_this (put_children (filter (fun x => negb (Edge_eqb x e)) c)).

(** [destroy()].  The base [Container.destroy] marks the node destroyed;
    it knows nothing of the ticker. *)
Definition destroy : M unit :=
  destroy_strip Top ;;
  destroy_strip Left ;;
  destroy_strip Right ;;
  destroy_strip Bottom ;;
  h <- the_texture ;;
  modify_textures (store_update h Texture_destroy) ;;
  modify_this (put_children []) ;;
  modify_this (put_destroyed true) ;;
  modify_this (put_strip Top None) ;;
  modify_this (put_strip Left None) ;;
  modify_this (put_strip Right None) ;;
  modify_this (put_strip Bottom None) ;;
  modify_this (put_texture None).

(** ** The shared frame clock *)

(** One frame: the listeners registered when the frame starts are called
    in order; an exception leaves the frame. *)
Fixpoint run_listeners (ls : list Listener) : M unit :=
  match ls with
  | [] => ret tt
  | ThisUpdate :: rest => update ;; run_listeners rest
  | Foreign _ :: rest => run_listeners rest
  end.

Definition tick : M unit := fun s => run_listeners (ticker s) s.

(** The host toggling [visible] from outside. *)
Definition set_visible (b : bool) : M unit := modify_this (put_visible b).

(** ** Histories *)

Inductive Call : Type :=
| CallResize (width height : number)
| CallUpdate
| CallSetAutoUpdate (value : bool)
| CallSetVisible (value : bool)
| CallTick
| CallDestroy.

Definition run_call (c : Call) : M unit :=
  match c with
  | CallResize w h => resize w h
  | CallUpdate => update
  | CallSetAutoUpdate v => set_autoUpdate v
  | CallSetVisible v => set_visible v
  | CallTick => tick
  | CallDestroy => destroy
  end.

(** The states a program can bring a node to: construction followed by
    any calls, whether they return or throw. *)
Inductive reachable : State -> Prop :=
| reach_new : forall o texs tk,
    reachable (snd (new_MarqueeSelection o texs tk))
| reach_call : forall s c,
    reachable s -> reachable (snd (run_call c s)).

(** A node none of whose resources has been let go. *)
Definition live (n : MarqueeSelection) : Prop :=
  exists t l r b,
    _topLine n = Some t /\ _leftLine n = Some l /\
    _rightLine n = Some r /\ _bottomLine n = Some b.

(** ** The layout as the specification words it *)

(** Where a strip sits and how large it is: left, top, width, height. *)
Record Geometry : Type := mkGeometry {
  g_x : number;
  g_y : number;
  g_width : number;
  g_height : number
}.

Definition geometry (sp : TilingSprite) : Geometry :=
  mkGeometry (px (position sp)) (py (position sp))
             (ts_width sp) (ts_height sp).

Definition same_geometry (a b : Geometry) : Prop :=
  g_x a =n= g_x b /\ g_y a =n= g_y b /\
  g_width a =n= g_width b /\ g_height a =n= g_height b.

(** The frame of section 4.2 for thickness [t] around a [w] by [h]
    opening. *)
Definition spec_layout (t w h : Q) (e : Edge) : Geometry :=
  match e with
  | Top => mkGeometry (Fin (- t)) (Fin (- t)) (Fin (w + 2 * t)) (Fin t)
  | Bottom => mkGeometry (Fin (- t)) (Fin h) (Fin (w + 2 * t)) (Fin t)
  | Left => mkGeometry (Fin (- t)) (Fin 0) (Fin t) (Fin h)
  | Right => mkGeometry (Fin w) (Fin 0) (Fin t) (Fin h)
  end.

(** An axis-aligned box on the plane: its left, top, right and bottom
    sides. *)
Record Box : Type := mkBox {
  b_left : Q;
  b_top : Q;
  b_right : Q;
  b_bottom : Q
}.

(** The box a geometry occupies; its far sides are sums on the plane,
    not sums of the program. *)
Definition box_of (g : Geometry) : option Box :=
  match g_x g, g_y g, g_width g, g_height g with
  | Fin x, Fin y, Fin w, Fin h => Some (mkBox x y (x + w) (y + h))
  | _, _, _, _ => None
  end.

Definition box_join (a b : Box) : Box :=
  mkBox (Qmin (b_left a) (b_left b)) (Qmin (b_top a) (b_top b))
        (Qmax (b_right a) (b_right b)) (Qmax (b_bottom a) (b_bottom b)).

(** The smallest box around four geometries. *)
Definition box_around (gt gl gr gb : Geometry) : option Box :=
  match box_of gt, box_of gl, box_of gr, box_of gb with
  | Some t, Some l, Some r, Some b =>
      Some (box_join (box_join t l) (box_join r b))
  | _, _, _, _ => None
  end.


(** The tile offset an edge animates: the top and bottom strips scroll
    along x, the left and right ones along y. *)
Definition tile_offset (e : Edge) (sp : TilingSprite) : number :=
  match e with
  | Top | Bottom => px (tilePosition sp)
  | Left | Right => py (tilePosition sp)
  end.

(** The length of a strip across its edge. *)
Definition cross_size (e : Edge) (sp : TilingSprite) : number :=
  match e with
  | Top | Bottom => ts_height sp
  | Left | Right => ts_width sp
  end.

(** ** The worked example of the specification *)

Definition example_options : MarqueeSelectionOptions :=
  mkOptions (Some (Fin 2)) None (Some (Fin 4)) (Some (Fin 4))
            (Some (Fin (1 # 5))) (Some (Fin 100)) (Some (Fin 50))
            None None.

Definition example_state : State :=
  snd (new_MarqueeSelection example_options [] []).

Definition hidden_options : MarqueeSelectionOptions :=
  mkOptions None None None None None None None None (Some false).

(** The tile offset of an edge of the node, when the edge still has its
    strip. *)
Definition offset (e : Edge) (n : MarqueeSelection) : option number :=
  option_map (tile_offset e) (strip e n).

(** [is_num o q]: the optional number [o] is present and is the rational
    [q]. *)
Definition is_num (o : option number) (q : Q) : Prop :=
  match o with
  | Some v => v =n= Fin q
  | None => False
  end.

(** The geometry of an edge is the given one. *)
Definition placed (e : Edge) (n : MarqueeSelection) (g : Geometry) : Prop :=
  match strip e n with
  | Some sp => same_geometry (geometry sp) g
  | None => False
  end.

(** ** Reasoning about method bodies *)

(** [maintains R m]: whatever state [m] starts in, the state it ends in
    (returning or throwing) is related to it by [R]. *)
Definition maintains {A} (R : State -> State -> Prop) (m : M A) : Prop :=
  forall s, R s (snd (m s)).

(** What [resize] must leave alone: the animation clock, the tile
    offsets, the texture and the store, the ticker, and the size of each
    strip across its edge.  Read edge by edge so that it also speaks of
    strips that are absent. *)
Definition resize_frame (s s' : State) : Prop :=
  _currentTime (this s') = _currentTime (this s) /\
  _texture (this s') = _texture (this s) /\
  textures s' = textures s /\
  ticker s' = ticker s /\
  _autoUpdate (this s') = _autoUpdate (this s) /\
  visible (this s') = visible (this s) /\
  thickness (this s') = thickness (this s) /\
  dash (this s') = dash (this s) /\
  dashSpace (this s') = dashSpace (this s) /\
  speed (this s') = speed (this s) /\
  forall e,
    option_map tilePosition (strip e (this s'))
      = option_map tilePosition (strip e (this s)) /\
    option_map (cross_size e) (strip e (this s'))
      = option_map (cross_size e) (strip e (this s)) /\
    option_map texture (strip e (this s'))
      = option_map texture (strip e (this s)).

(** The readonly fields keep their value, and a strip that is present
    is as thick as the border. *)
Definition thickness_kept (s s' : State) : Prop :=
  thickness (this s') = thickness (this s) /\
  ((forall e sp, strip e (this s) = Some sp ->
                 cross_size e sp = thickness (this s)) ->
   (forall e sp, strip e (this s') = Some sp ->
                 cross_size e sp = thickness (this s'))).

(** The ticker is not touched. *)
Definition ticker_kept (s s' : State) : Prop := ticker s' = ticker s.

(** ** The claims that do not hold as worded

    Each is written down as the specification has it, so that it can be
    confronted with the code. *)

(** Property 5 of the specification, read with the mathematical modulo:
    on a visible node [update] adds [speed] to the clock and gives every
    edge an offset in [[0, period)]. *)
Definition update_claim (s : State) : Prop :=
  visible (this s) = true ->
  exists s' t p,
    update s = (Returned tt, s') /\
    _currentTime (this s') = Fin t /\
    num_add (_currentTime (this s)) (speed (this s)) =n= Fin t /\
    num_add (dash (this s)) (dashSpace (this s)) = Fin p /\
    is_num (offset Top (this s')) (math_mod t p) /\
    is_num (offset Bottom (this s')) (math_mod (- t) p) /\
    is_num (offset Left (this s')) (math_mod (- t) p) /\
    is_num (offset Right (this s')) (math_mod t p).

(** Property 8 of the specification: the worked example. *)
Definition example_claim : Prop :=
  let n := this example_state in
  placed Top n (mkGeometry (Fin (-2)) (Fin (-2)) (Fin 104) (Fin 2)) /\
  placed Bottom n (mkGeometry (Fin (-2)) (Fin 50) (Fin 104) (Fin 2)) /\
  placed Left n (mkGeometry (Fin (-2)) (Fin 0) (Fin 2) (Fin 50)) /\
  placed Right n (mkGeometry (Fin 100) (Fin 0) (Fin 2) (Fin 50)) /\
  let n' := this (snd (update example_state)) in
  is_num (offset Top n') (1 # 5) /\
  is_num (offset Bottom n') (39 # 5) /\
  is_num (offset Left n') (39 # 5) /\
  is_num (offset Right n') (1 # 5).

(** Section 7 (b) of the specification: once [destroy] has returned,
    the references are gone and both [resize] and [update] throw. *)
Definition after_destroy_claim (s : State) : Prop :=
  forall s1,
    destroy s = (Returned tt, s1) ->
    (forall e, strip e (this s1) = None) /\
    _texture (this s1) = None /\
    (forall w h, fst (resize w h s1) = Threw TypeError) /\
    fst (update s1) = Threw TypeError.

(** Property 7 of the specification: after [destroy] the node's
    [update] is no longer a listener of the shared ticker. *)
Definition deregistered_claim (s : State) : Prop :=
  forall s1,
    destroy s = (Returned tt, s1) ->
    registrations (ticker s1) = 0%nat.

(** Options with neither dash nor gap. *)
Definition degenerate_options : MarqueeSelectionOptions :=
  mkOptions None None (Some (Fin 0)) (Some (Fin 0)) None None None None None.

Definition degenerate_state : State :=
  snd (new_MarqueeSelection degenerate_options [] []).

(** A node built with every default, and one built hidden. *)
Definition default_state : State :=
  snd (new_MarqueeSelection no_options [] []).

Definition hidden_state : State :=
  snd (new_MarqueeSelection hidden_options [] []).

(** How the value [v] of [a % p] relates to the mathematical modulo,
    for [p > 0]: the two agree for a dividend that is not negative;
    for one that is not positive, [v] lies in [(-p, 0]] and is the
    modulo moved down by one period, or zero when the modulo is zero. *)
Definition rem_of (a p : Q) (v : number) : Prop :=
  (0 <= a -> v = Fin (math_mod a p)) /\
  (a <= 0 ->
   exists r, v = Fin r /\ - p < r /\ r <= 0 /\
             ((r == 0 /\ math_mod a p == 0) \/ r == math_mod a p - p)).

(** ** Further notions used by the properties of the methods *)

(** What [update] must leave alone: everything but [_currentTime] and
    the tile positions.  Read edge by edge so that it also speaks of
    strips that are absent. *)
Definition update_frame (s s' : State) : Prop :=
  textures s' = textures s /\
  ticker s' = ticker s /\
  _texture (this s') = _texture (this s) /\
  _autoUpdate (this s') = _autoUpdate (this s) /\
  visible (this s') = visible (this s) /\
  children (this s') = children (this s) /\
  destroyed (this s') = destroyed (this s) /\
  thickness (this s') = thickness (this s) /\
  dash (this s') = dash (this s) /\
  dashSpace (this s') = dashSpace (this s) /\
  speed (this s') = speed (this s) /\
  forall e,
    option_map geometry (strip e (this s'))
      = option_map geometry (strip e (this s)) /\
    option_map texture (strip e (this s'))
      = option_map texture (strip e (this s)) /\
    option_map roundPixels (strip e (this s'))
      = option_map roundPixels (strip e (this s)) /\
    option_map ts_destroyed (strip e (this s'))
      = option_map ts_destroyed (strip e (this s)).

(** [update()] called [n] times in a row. *)
Fixpoint updates (n : nat) : M unit :=
  match n with
  | O => ret tt
  | S k => update ;; updates k
  end.

(** The ticker holds the node's [update] as [_autoUpdate] says: once
    when it is [true], not at all when it is [false]. *)
Definition registered_as_set (s : State) : Prop :=
  registrations (ticker s) = if _autoUpdate (this s) then 1%nat else 0%nat.

(** A node with all it was built with: its four strips, all children of
    the node and all drawing from the node's texture, which is in the
    store. *)
Definition whole (s : State) : Prop :=
  exists h t l r b,
    _topLine (this s) = Some t /\ _leftLine (this s) = Some l /\
    _rightLine (this s) = Some r /\ _bottomLine (this s) = Some b /\
    _texture (this s) = Some h /\
    texture t = h /\ texture l = h /\ texture r = h /\ texture b = h /\
    (h < length (textures s))%nat /\
    children (this s) = [Top; Left; Right; Bottom] /\
    destroyed (this s) = false.

(** A node that has let go of everything. *)
Definition gone (s : State) : Prop :=
  (forall e, strip e (this s) = None) /\
  _texture (this s) = None /\
  children (this s) = [] /\
  destroyed (this s) = true.




(** The options [o] with [width] and [height] replaced. *)
Definition with_size (w h : number) (o : MarqueeSelectionOptions)
  : MarqueeSelectionOptions :=
  mkOptions (o_thickness o) (o_color o) (o_dash o) (o_dashSpace o)
            (o_speed o) (Some w) (Some h) (o_autoUpdate o) (o_visible o).

(** ** The layout in any arithmetic *)

Section LayoutIn.

Variable N : Type.
Variables add mul : N -> N -> N.
Variable neg : N -> N.
Variables zero two : N.

(** What a strip holds once [resize(width, height)] has run on a node
    of thickness [l]: its position and its length along the edge as
    [resize] writes them, and its size across the edge as the
    constructor set it.  The four components are x, y, width and height;
    sums and products are those of the arithmetic at hand. *)
Definition layout_in (l width height : N) (e : Edge) : N * N * N * N :=
  match e with
  | Top => (neg l, neg l, add width (mul l two), l)
  | Left => (neg l, zero, l, height)
  | Right => (width, zero, l, height)
  | Bottom => (neg l, height, add width (mul l two), l)
  end.

End LayoutIn.


(** ** The layout in binary64 *)

(** The rational a binary64 number stands for, when it is finite. *)
Definition F2Q (f : float) : option Q :=
  match Prim2SF f with
  | S754_zero _ => Some 0
  | S754_finite s m e =>
      Some ((if s then - (1) else 1) * inject_Z (Zpos m) * Qpower 2 e)
  | _ => None
  end.

Definition number_of_float (f : float) : number :=
  match F2Q f with
  | Some q => Fin q
  | None => NaN
  end.

(** The same layout computed as the JavaScript engine computes it, each
    result read back as the rational it stands for. *)
Definition layout64 (l width height : float) (e : Edge) : Geometry :=
  let '(x, y, w, h) :=
    layout_in float PrimFloat.add PrimFloat.mul PrimFloat.opp
              0%float 2%float l width height e in
  mkGeometry (number_of_float x) (number_of_float y)
             (number_of_float w) (number_of_float h).


(** Property 2 of the specification, read on binary64 inputs: the four
    strips are where section 4.2 puts them, with sizes that are the
    exact sums, and the box around them runs from (-t,-t) to
    (width+t, height+t). *)
Definition layout_claim64 (t w h : float) : Prop :=
  exists tq wq hq,
    F2Q t = Some tq /\ F2Q w = Some wq /\ F2Q h = Some hq /\
    (forall e, same_geometry (layout64 t w h e) (spec_layout tq wq hq e)) /\
    exists bx,
      box_around (layout64 t w h Top) (layout64 t w h Left)
                 (layout64 t w h Right) (layout64 t w h Bottom) = Some bx /\
      b_left bx == - tq /\ b_top bx == - tq /\
      b_right bx == wq + tq /\ b_bottom bx == hq + tq.

(** ** The dash texture as the specification words it *)

(** A dash of one and a half pixels with a gap of one. *)
Definition fractional_options : MarqueeSelectionOptions :=
  mkOptions None None (Some (Fin (3 # 2))) (Some (Fin 1))
            None None None None None.

(** Property 1 of the specification for a node built with the options
    [o]: for [dash = d >= 0] and [dashSpace = ds >= 0] the texture is
    [d + ds] pixels wide and high, sampled with the nearest neighbour,
    opaque with the configured colour on [[0,d) x [0,d)] and transparent
    elsewhere. *)
Definition texture_claim (o : MarqueeSelectionOptions) : Prop :=
  forall d ds,
    default (Fin 2) (o_dash o) = Fin d ->
    default (Fin 2) (o_dashSpace o) = Fin ds ->
    0 <= d -> 0 <= ds ->
    exists tx src,
      textures (snd (new_MarqueeSelection o [] [])) = [tx] /\
      source tx = Some src /\
      inject_Z (cv_width (resource src)) == d + ds /\
      inject_Z (cv_height (resource src)) == d + ds /\
      scaleMode src = Nearest /\
      forall i j,
        (0 <= i < cv_width (resource src))%Z ->
        (0 <= j < cv_height (resource src))%Z ->
        (inject_Z i < d /\ inject_Z j < d ->
         opaque_pixel (default white (o_color o))
                      (canvas_pixel (resource src) i j)) /\
        (~ (inject_Z i < d /\ inject_Z j < d) ->
         transparent_pixel (canvas_pixel (resource src) i j)).

(** * Properties *)

(** ** The remainder operator *)

Lemma Qtrunc_nonneg (q : Q) : 0 <= q -> Qtrunc q = Qfloor q.
Proof.
  intro H. unfold Qtrunc. apply Qle_bool_iff in H. now rewrite H.
Qed.

Lemma Qtrunc_nonpos (q : Q) : q <= 0 -> Qtrunc q = Qceiling q.
Proof.
  intro H. unfold Qtrunc. destruct (Qle_bool 0 q) eqn:E; [|reflexivity].
  apply Qle_bool_iff in E.
  assert (K : q == 0) by lra.
  rewrite K. reflexivity.
Qed.

(** The ceiling is the floor, or one above it. *)
Lemma Qfloor_ceiling_gap (q : Q) :
  Qceiling q = Qfloor q \/ Qceiling q = (Qfloor q + 1)%Z.
Proof.
  pose proof (Qfloor_le q) as H1.
  pose proof (Qle_ceiling q) as H2.
  pose proof (Qlt_floor q) as H3.
  pose proof (Qceiling_lt q) as H4.
  assert (A : (Qfloor q <= Qceiling q)%Z).
  { rewrite Zle_Qle. lra. }
  assert (B : (Qceiling q - 1 < Qfloor q + 1)%Z).
  { rewrite Zlt_Qlt. lra. }
  lia.
Qed.

Lemma Qopp_opp (q : Q) : - - q = q.
Proof.
  destruct q as [n d]. unfold Qopp. simpl. now rewrite Z.opp_involutive.
Qed.

Lemma Qtrunc_comp (q q' : Q) : q == q' -> Qtrunc q = Qtrunc q'.
Proof.
  intro H. unfold Qtrunc.
  rewrite (Qleb_comp 0 0 (Qeq_refl 0) q q' H).
  rewrite (Qfloor_comp q q' H), (Qceiling_comp q q' H).
  reflexivity.
Qed.

(** Rounding toward zero is odd. *)
Lemma Qtrunc_opp (q : Q) : Qtrunc (- q) = (- Qtrunc q)%Z.
Proof.
  destruct (Qlt_le_dec q 0) as [Hneg|Hpos].
  - rewrite (Qtrunc_nonneg (- q)) by lra.
    rewrite (Qtrunc_nonpos q) by lra.
    unfold Qceiling. lia.
  - rewrite (Qtrunc_nonpos (- q)) by lra.
    rewrite (Qtrunc_nonneg q) by lra.
    unfold Qceiling. now rewrite Qopp_opp.
Qed.

(** [(-a) % p] is [-(a % p)], whatever the operands. *)
Lemma num_rem_neg (a p : number) :
  num_rem (num_neg a) p =n= num_neg (num_rem a p).
Proof.
  destruct a as [a|], p as [p|]; simpl; trivial.
  unfold Qrem. destruct (Qeq_bool p 0) eqn:E; simpl; trivial.
  assert (Hp : ~ p == 0).
  { intro K. apply Qeq_bool_iff in K. congruence. }
  assert (Hq : - a / p == - (a / p)) by (field; assumption).
  rewrite (Qtrunc_comp _ _ Hq), Qtrunc_opp, inject_Z_opp. ring.
Qed.

(** A zero period makes every remainder [NaN]. *)
Lemma num_rem_zero (a : number) : num_rem a (Fin 0) = NaN.
Proof. destruct a; reflexivity. Qed.

(** With a positive period [p], the tiling period of the class. *)
Section PositivePeriod.

Variable p : Q.
Hypothesis p_pos : 0 < p.

Lemma Qeq_bool_pos : Qeq_bool p 0 = false.
Proof.
  destruct (Qeq_bool p 0) eqn:E; [|reflexivity].
  apply Qeq_bool_iff in E. lra.
Qed.

(** [a] lies between two consecutive multiples of [p]. *)
Lemma Qdiv_sandwich (a : Q) :
  p * inject_Z (Qfloor (a / p)) <= a /\ a < p * inject_Z (Qfloor (a / p)) + p.
Proof.
  assert (E : a == p * (a / p)) by (field; lra).
  pose proof (Qfloor_le (a / p)) as H1.
  pose proof (Qlt_floor (a / p)) as H2.
  rewrite inject_Z_plus in H2.
  set (f := inject_Z (Qfloor (a / p))) in *.
  set (q := a / p) in *.
  assert (p * f <= p * q) by (apply Qmult_le_l; assumption).
  assert (p * q < p * (f + inject_Z 1)) by (apply Qmult_lt_l; assumption).
  change (inject_Z 1) with 1 in *. lra.
Qed.

(** The mathematical modulo lands in [[0, p)]. *)
Lemma math_mod_range (a : Q) : 0 <= math_mod a p /\ math_mod a p < p.
Proof.
  unfold math_mod. destruct (Qdiv_sandwich a). lra.
Qed.

(** On a dividend that is not negative, [%] is the modulo. *)
Lemma Qrem_nonneg (a : Q) : 0 <= a -> Qrem a p = Fin (math_mod a p).
Proof.
  intros Ha. unfold Qrem, math_mod.
  rewrite Qeq_bool_pos.
  rewrite Qtrunc_nonneg; [reflexivity|].
  apply Qle_shift_div_l; lra.
Qed.

(** On a dividend that is not positive, [%] is the modulo less one
    period, unless the modulo is zero. *)
Lemma Qrem_neg (a : Q) :
  a <= 0 ->
  exists r, Qrem a p = Fin r /\ - p < r /\ r <= 0 /\
            ((r == 0 /\ math_mod a p == 0) \/ r == math_mod a p - p).
Proof.
  intros Ha. unfold Qrem. rewrite Qeq_bool_pos.
  eexists. split; [reflexivity|].
  assert (Hq : a / p <= 0).
  { apply Qle_shift_div_r; lra. }
  rewrite (Qtrunc_nonpos _ Hq).
  destruct (Qdiv_sandwich a) as [L U].
  pose proof (Qle_ceiling (a / p)) as C1.
  assert (E : a == p * (a / p)) by (field; lra).
  assert (C2 : p * (a / p) <= p * inject_Z (Qceiling (a / p))).
  { apply Qmult_le_l; assumption. }
  pose proof (Qceiling_lt (a / p)) as C3.
  assert (C4 : p * inject_Z (Qceiling (a / p) - 1) < p * (a / p)).
  { apply Qmult_lt_l; assumption. }
  unfold math_mod.
  destruct (Qfloor_ceiling_gap (a / p)) as [G|G]; rewrite G in *; clear G;
    [|replace (Qfloor (a / p) + 1 - 1)%Z with (Qfloor (a / p)) in * by lia;
      rewrite inject_Z_plus in *; change (inject_Z 1) with 1 in *];
    set (f := inject_Z (Qfloor (a / p))) in *;
    set (q := a / p) in *; clearbody f q.
  - split; [lra|]. split; [lra|]. left. lra.
  - split; [lra|]. split; [lra|]. right. lra.
Qed.

Lemma rem_of_Qrem (a : Q) : rem_of a p (Qrem a p).
Proof.
  split.
  - apply Qrem_nonneg.
  - apply Qrem_neg.
Qed.

End PositivePeriod.

(** ** Method bodies and relations between states *)

Section Maintains.

Variable R : State -> State -> Prop.
Hypothesis R_refl : forall s, R s s.
Hypothesis R_trans : forall a b c, R a b -> R b c -> R a c.

Lemma maintains_ret {A} (a : A) : maintains R (ret a).
Proof. intro s. apply R_refl. Qed.

Lemma maintains_throw {A} (e : Error) : maintains R (@throw A e).
Proof. intro s. apply R_refl. Qed.

Lemma maintains_get {A} (f : MarqueeSelection -> A) : maintains R (get f).
Proof. intro s. apply R_refl. Qed.

Lemma maintains_bind {A B} (m : M A) (k : A -> M B) :
  maintains R m -> (forall a, maintains R (k a)) -> maintains R (bind m k).
Proof.
  intros Hm Hk s. unfold bind.
  specialize (Hm s). destruct (m s) as [[a|e] s1]; simpl in *.
  - apply R_trans with s1; [assumption | apply Hk].
  - assumption.
Qed.

Lemma maintains_if {A} (b : bool) (m1 m2 : M A) :
  maintains R m1 -> maintains R m2 -> maintains R (if b then m1 else m2).
Proof. destruct b; trivial. Qed.

Lemma maintains_modify_this f :
  (forall s, R s (mkState (f (this s)) (textures s) (ticker s))) ->
  maintains R (modify_this f).
Proof. intros H s. apply H. Qed.

Lemma maintains_on_strip e f :
  (forall s sp, strip e (this s) = Some sp ->
     R s (mkState (put_strip e (Some (f sp)) (this s))
                  (textures s) (ticker s))) ->
  maintains R (on_strip e f).
Proof.
  intros H s. unfold on_strip, bind, get. simpl.
  destruct (strip e (this s)) as [sp|] eqn:E; simpl.
  - now apply H.
  - apply R_refl.
Qed.

End Maintains.

Lemma strip_put_strip (e e' : Edge) v n :
  strip e' (put_strip e v n) = if Edge_eqb e e' then v else strip e' n.
Proof. destruct e, e'; reflexivity. Qed.

Lemma Edge_eqb_eq (a b : Edge) : Edge_eqb a b = true <-> a = b.
Proof. destruct a, b; simpl; split; congruence. Qed.

Lemma resize_frame_refl s : resize_frame s s.
Proof. unfold resize_frame. repeat split; reflexivity. Qed.

Lemma resize_frame_trans a b c :
  resize_frame a b -> resize_frame b c -> resize_frame a c.
Proof.
  unfold resize_frame.
  intros (A1 & A2 & A3 & A4 & A5 & A6 & A7 & A8 & A9 & A10 & A11)
         (B1 & B2 & B3 & B4 & B5 & B6 & B7 & B8 & B9 & B10 & B11).
  repeat split; try congruence;
    destruct (A11 e) as (X & Y & Z), (B11 e) as (X' & Y' & Z'); congruence.
Qed.

Lemma thickness_kept_refl s : thickness_kept s s.
Proof. split; auto. Qed.

Lemma thickness_kept_trans a b c :
  thickness_kept a b -> thickness_kept b c -> thickness_kept a c.
Proof.
  intros [A1 A2] [B1 B2]. split; [congruence | auto].
Qed.

Lemma ticker_kept_refl s : ticker_kept s s.
Proof. reflexivity. Qed.

Lemma ticker_kept_trans a b c :
  ticker_kept a b -> ticker_kept b c -> ticker_kept a c.
Proof. unfold ticker_kept. congruence. Qed.

(** Changing a strip in a way that keeps its tile position, its size
    across the edge and its texture is within [resize]'s frame. *)
Lemma on_strip_resize_frame e f :
  (forall sp, tilePosition (f sp) = tilePosition sp) ->
  (forall sp, cross_size e (f sp) = cross_size e sp) ->
  (forall sp, texture (f sp) = texture sp) ->
  maintains resize_frame (on_strip e f).
Proof.
  intros Ht Hc Hx. apply maintains_on_strip; [apply resize_frame_refl|].
  intros s sp E. unfold resize_frame. simpl.
  repeat split; try (destruct e; reflexivity);
    rewrite strip_put_strip;
    destruct (Edge_eqb e e0) eqn:Q; trivial;
    apply Edge_eqb_eq in Q; subst e0; rewrite E; simpl;
    now rewrite ?Ht, ?Hc, ?Hx.
Qed.

Lemma on_strip_thickness_kept e f :
  (forall sp, cross_size e (f sp) = cross_size e sp) ->
  maintains thickness_kept (on_strip e f).
Proof.
  intros Hc. apply maintains_on_strip; [apply thickness_kept_refl|].
  intros s sp E. split; simpl; [destruct e; reflexivity|].
  intros Inv e' sp'. rewrite strip_put_strip.
  replace (thickness (put_strip e (Some (f sp)) (this s)))
    with (thickness (this s)) by (destruct e; reflexivity).
  destruct (Edge_eqb e e') eqn:Q.
  - apply Edge_eqb_eq in Q. subst e'. intro K. inversion K; subst.
    rewrite Hc. now apply Inv.
  - apply Inv.
Qed.

Lemma on_strip_ticker_kept e f : maintains ticker_kept (on_strip e f).
Proof.
  apply maintains_on_strip; [apply ticker_kept_refl|]. reflexivity.
Qed.

(** Splits a method body along its binds.  [leaf] is tried first on
    every piece, so that primitives with a lemma of their own are not
    taken apart. *)
Ltac maintain Rrefl Rtrans leaf :=
  cbv zeta;
  repeat first
    [ solve [leaf]
    | apply (maintains_ret _ Rrefl)
    | apply (maintains_throw _ Rrefl)
    | apply (maintains_get _ Rrefl)
    | apply maintains_if
    | apply (maintains_bind _ Rtrans); [| intro] ].

(** [resize] stays within its frame. *)
Lemma resize_maintains_frame w h : maintains resize_frame (resize w h).
Proof.
  unfold resize.
  maintain resize_frame_refl resize_frame_trans
    ltac:(apply on_strip_resize_frame; reflexivity).
Qed.

Lemma modify_this_thickness_kept f :
  (forall n, thickness (f n) = thickness n) ->
  (forall n e, strip e (f n) = strip e n \/ strip e (f n) = None) ->
  maintains thickness_kept (modify_this f).
Proof.
  intros Ht Hs. apply maintains_modify_this. intro s. split; simpl.
  - apply Ht.
  - intros Inv e sp. rewrite Ht. destruct (Hs (this s) e) as [K|K]; rewrite K.
    + apply Inv.
    + discriminate.
Qed.

Lemma modify_ticker_thickness_kept f :
  maintains thickness_kept (modify_ticker f).
Proof. intro s. unfold thickness_kept. simpl. auto. Qed.

Lemma modify_textures_thickness_kept f :
  maintains thickness_kept (modify_textures f).
Proof. intro s. unfold thickness_kept. simpl. auto. Qed.

(** The primitives a method is made of, for [thickness_kept]. *)
Ltac thickness_leaf :=
  first
    [ apply on_strip_thickness_kept; reflexivity
    | apply modify_ticker_thickness_kept
    | apply modify_textures_thickness_kept
    | apply modify_this_thickness_kept;
      [ reflexivity
      | let n := fresh "n" in let e := fresh "e" in
        intros n e; destruct e; simpl; auto ] ].

Ltac thickness_steps :=
  maintain thickness_kept_refl thickness_kept_trans thickness_leaf.

Lemma resize_thickness_kept w h : maintains thickness_kept (resize w h).
Proof. unfold resize. thickness_steps. Qed.

Lemma update_thickness_kept : maintains thickness_kept update.
Proof. unfold update. thickness_steps. Qed.

Lemma set_autoUpdate_thickness_kept v :
  maintains thickness_kept (set_autoUpdate v).
Proof. unfold set_autoUpdate. thickness_steps. Qed.

Lemma set_visible_thickness_kept v : maintains thickness_kept (set_visible v).
Proof. unfold set_visible. thickness_steps. Qed.

Lemma run_listeners_thickness_kept ls :
  maintains thickness_kept (run_listeners ls).
Proof.
  induction ls as [|[|k] rest IH]; simpl.
  - apply maintains_ret, thickness_kept_refl.
  - apply (maintains_bind _ thickness_kept_trans).
    + apply update_thickness_kept.
    + intro. exact IH.
  - exact IH.
Qed.

Lemma tick_thickness_kept : maintains thickness_kept tick.
Proof. intro s. unfold tick. apply run_listeners_thickness_kept. Qed.

Lemma the_texture_maintains R :
  (forall s, R s s) -> maintains R the_texture.
Proof.
  intros Rrefl s. unfold the_texture, bind, get. simpl.
  destruct (_texture (this s)); apply Rrefl.
Qed.

Lemma destroy_strip_thickness_kept e :
  maintains thickness_kept (destroy_strip e).
Proof. unfold destroy_strip. thickness_steps. Qed.

Lemma destroy_thickness_kept : maintains thickness_kept destroy.
Proof.
  unfold destroy.
  maintain thickness_kept_refl thickness_kept_trans
    ltac:(first [ apply destroy_strip_thickness_kept
                | apply the_texture_maintains, thickness_kept_refl
                | thickness_leaf ]).
Qed.

Lemma run_call_thickness_kept c : maintains thickness_kept (run_call c).
Proof.
  destruct c; simpl.
  - apply resize_thickness_kept.
  - apply update_thickness_kept.
  - apply set_autoUpdate_thickness_kept.
  - apply set_visible_thickness_kept.
  - apply tick_thickness_kept.
  - apply destroy_thickness_kept.
Qed.

(** ** What the methods compute *)

Lemma store_update_last (l : list Texture) f t :
  store_update (length l) f (l ++ [t]) = l ++ [f t].
Proof.
  induction l as [|x l IH]; simpl; [reflexivity | now rewrite IH].
Qed.

(** Runs a method body on a state whose relevant fields are known. *)
Ltac run_body := repeat (unfold bind at 1; simpl).

(** The constructor never throws, and leaves this state. *)
Lemma new_MarqueeSelection_eq o texs tk :
  let t := default (Fin 2) (o_thickness o) in
  let c := default white (o_color o) in
  let d := default (Fin 2) (o_dash o) in
  let ds := default (Fin 2) (o_dashSpace o) in
  let sp := default (Fin (1 # 5)) (o_speed o) in
  let w := default (Fin 100) (o_width o) in
  let h := default (Fin 100) (o_height o) in
  let au := default true (o_autoUpdate o) in
  let long := num_add w (num_mul t (Fin 2)) in
  let tex := length texs in
  new_MarqueeSelection o texs tk =
  (Returned tt,
   mkState
     (mkMarqueeSelection
        (default true (o_visible o)) [Top; Left; Right; Bottom] false
        t d ds sp
        (Some (mkTilingSprite true tex (mkPoint (num_neg t) (num_neg t))
                              long t origin false))
        (Some (mkTilingSprite true tex (mkPoint (num_neg t) (Fin 0))
                              t h origin false))
        (Some (mkTilingSprite true tex (mkPoint w (Fin 0))
                              t h origin false))
        (Some (mkTilingSprite true tex (mkPoint (num_neg t) h)
                              long t origin false))
        (Some tex) au (Fin 0))
     (texs ++ [mkTexture
                 (Some (mkTextureSource
                    (mkCanvas (canvas_size 300 (num_add d ds))
                              (canvas_size 150 (num_add d ds)) c
                              [mkFillRect c (Fin 0) (Fin 0) d d])
                    Nearest))
                 false])
     (if au then Ticker_add ThisUpdate (Ticker_remove tk)
      else Ticker_remove tk)).
Proof.
  intros. unfold new_MarqueeSelection, constructor.
  fold t c d ds sp w h au.
  clearbody t c d ds sp w h au. subst long tex.
  do 4 (unfold bind at 1; simpl).
  rewrite store_update_last.
  generalize (length texs). intro tex.
  lazy -[canvas_size]. destruct au; reflexivity.
Qed.

(** On a node that has its four strips, [resize] returns and changes
    exactly the positions and the lengths along the edges. *)
Lemma resize_live w h s t l r b :
  _topLine (this s) = Some t ->
  _leftLine (this s) = Some l ->
  _rightLine (this s) = Some r ->
  _bottomLine (this s) = Some b ->
  let k := thickness (this s) in
  let long := num_add w (num_mul k (Fin 2)) in
  resize w h s =
  (Returned tt,
   mkState
     (put_strip Right (Some (set_height h
        (set_position (mkPoint w (Fin 0)) r)))
     (put_strip Left (Some (set_height h
        (set_position (mkPoint (num_neg k) (Fin 0)) l)))
     (put_strip Bottom (Some (set_width long
        (set_position (mkPoint (num_neg k) h) b)))
     (put_strip Top (Some (set_width long
        (set_position (mkPoint (num_neg k) (num_neg k)) t)))
        (this s)))))
     (textures s) (ticker s)).
Proof.
  destruct s as [n texs tk]. destruct n. simpl.
  intros -> -> -> ->. reflexivity.
Qed.

(** On a visible node that has its four strips, [update] returns after
    advancing the clock and writing the four offsets. *)
Lemma update_live s t l r b :
  visible (this s) = true ->
  _topLine (this s) = Some t ->
  _leftLine (this s) = Some l ->
  _rightLine (this s) = Some r ->
  _bottomLine (this s) = Some b ->
  let now := num_add (_currentTime (this s)) (speed (this s)) in
  let size := num_add (dash (this s)) (dashSpace (this s)) in
  update s =
  (Returned tt,
   mkState
     (put_strip Right (Some (set_tile_y (num_rem now size) r))
     (put_strip Left (Some (set_tile_y (num_rem (num_neg now) size) l))
     (put_strip Bottom (Some (set_tile_x (num_rem (num_neg now) size) b))
     (put_strip Top (Some (set_tile_x (num_rem now size) t))
        (put_currentTime now (this s))))))
     (textures s) (ticker s)).
Proof.
  destruct s as [n texs tk]. destruct n. simpl.
  intros -> -> -> -> ->. reflexivity.
Qed.

(** On a hidden node [update] returns at once. *)
Lemma update_hidden s :
  visible (this s) = false -> update s = (Returned tt, s).
Proof.
  intro H. unfold update, bind, get. simpl. rewrite H. reflexivity.
Qed.

(** [set autoUpdate] always returns; this is the state it leaves. *)
Lemma set_autoUpdate_eq v s :
  set_autoUpdate v s =
  (Returned tt,
   mkState (put_autoUpdate v (this s)) (textures s)
           (if v then Ticker_add ThisUpdate (Ticker_remove (ticker s))
            else Ticker_remove (ticker s))).
Proof. destruct v; reflexivity. Qed.

(** The strips a constructed node starts with are as thick as the
    border, and no method changes that. *)
Lemma reachable_thickness s :
  reachable s ->
  forall e sp, strip e (this s) = Some sp -> cross_size e sp = thickness (this s).
Proof.
  induction 1 as [o texs tk | s c Hs IH].
  - rewrite new_MarqueeSelection_eq. simpl.
    intros e sp. destruct e; simpl; intro K; inversion K; reflexivity.
  - apply (run_call_thickness_kept c s). exact IH.
Qed.

(** ** The animation driver *)

Lemma offset_put_strip e e' v n :
  offset e' (put_strip e (Some v) n)
  = if Edge_eqb e e' then Some (tile_offset e' v) else offset e' n.
Proof.
  unfold offset. rewrite strip_put_strip. now destruct (Edge_eqb e e').
Qed.

(** C6: on a node that is not visible, [update] returns without
    changing anything: the clock, the four tile offsets and the rest of
    the state are what they were. *)
Theorem update_not_visible_noop (s : State) :
  visible (this s) = false ->
  update s = (Returned tt, s).
Proof.
  intro Hidden. unfold update.
  unfold bind at 1. unfold get at 1. simpl.
  rewrite Hidden. reflexivity.
Qed.

Lemma update_not_visible_noop_witness :
  update hidden_state = (Returned tt, hidden_state).
Proof.
  apply (update_not_visible_noop hidden_state).
  reflexivity.
Defined.

(** C1, as amended: on a visible node that has its strips, [update]
    adds [speed] to [_currentTime] and then sets the top x-offset and
    the right y-offset to [currentTime % period] and the bottom x-offset
    and the left y-offset to [(-currentTime) % period], where
    [period = dash + dashSpace] and [%] is the remainder of the division
    truncated toward zero.  For a positive period such a remainder is
    the mathematical modulo when its dividend is not negative; for a
    dividend that is not positive it lies in [(-period, 0]] and is the
    modulo minus the period (zero when the modulo is zero). *)
Theorem update_visible_offsets (s : State) :
  visible (this s) = true ->
  live (this s) ->
  exists s',
    update s = (Returned tt, s') /\
    _currentTime (this s')
      = num_add (_currentTime (this s)) (speed (this s)) /\
    let now := _currentTime (this s') in
    let period := num_add (dash (this s)) (dashSpace (this s)) in
    offset Top (this s') = Some (num_rem now period) /\
    offset Bottom (this s') = Some (num_rem (num_neg now) period) /\
    offset Left (this s') = Some (num_rem (num_neg now) period) /\
    offset Right (this s') = Some (num_rem now period) /\
    forall t p,
      now = Fin t -> period = Fin p -> 0 < p ->
      rem_of t p (num_rem now period) /\
      rem_of (- t) p (num_rem (num_neg now) period).
Proof.
  intros Hvis (t & l & r & b & Ht & Hl & Hr & Hb).
  eexists. split.
  - apply (update_live s t l r b); assumption.
  - cbv zeta. simpl this.
    split; [reflexivity|].
    repeat (split; [rewrite !offset_put_strip; reflexivity|]).
    intros q p Hnow Hper Hp. simpl in Hnow. rewrite Hnow, Hper. simpl.
    split; apply rem_of_Qrem; assumption.
Qed.

Lemma update_visible_offsets_witness :
  exists s',
    update example_state = (Returned tt, s') /\
    _currentTime (this s')
      = num_add (_currentTime (this example_state))
                (speed (this example_state)) /\
    let now := _currentTime (this s') in
    let period := num_add (dash (this example_state))
                          (dashSpace (this example_state)) in
    offset Top (this s') = Some (num_rem now period) /\
    offset Bottom (this s') = Some (num_rem (num_neg now) period) /\
    offset Left (this s') = Some (num_rem (num_neg now) period) /\
    offset Right (this s') = Some (num_rem now period) /\
    forall t p,
      now = Fin t -> period = Fin p -> 0 < p ->
      rem_of t p (num_rem now period) /\
      rem_of (- t) p (num_rem (num_neg now) period).
Proof.
  apply (update_visible_offsets example_state).
  - reflexivity.
  - unfold live. vm_compute. repeat eexists.
Defined.

(** C1 as worded fails on the worked example: after one [update] the
    bottom offset is [-1/5], which is not the modulo [39/5]. *)
Lemma update_claim_fails : ~ update_claim example_state.
Proof.
  intro H. destruct (H eq_refl) as (s' & t & p & Hu & Ht & _ & Hp & _ & Hb & _).
  assert (E : s' = snd (update example_state)) by now rewrite Hu.
  subst s'. vm_compute in Ht, Hp.
  injection Ht as <-. injection Hp as <-.
  vm_compute in Hb. discriminate Hb.
Qed.

(** ** The worked example *)

Lemma example_state_eq :
  example_state =
  mkState
    (mkMarqueeSelection
       true [Top; Left; Right; Bottom] false
       (Fin 2) (Fin 4) (Fin 4) (Fin (1 # 5))
       (Some (mkTilingSprite true 0%nat (mkPoint (Fin (-2)) (Fin (-2)))
                             (Fin 104) (Fin 2) origin false))
       (Some (mkTilingSprite true 0%nat (mkPoint (Fin (-2)) (Fin 0))
                             (Fin 2) (Fin 50) origin false))
       (Some (mkTilingSprite true 0%nat (mkPoint (Fin 100) (Fin 0))
                             (Fin 2) (Fin 50) origin false))
       (Some (mkTilingSprite true 0%nat (mkPoint (Fin (-2)) (Fin 50))
                             (Fin 104) (Fin 2) origin false))
       (Some 0%nat) true (Fin 0))
    [mkTexture
       (Some (mkTextureSource
          (mkCanvas 8 8 white
                    [mkFillRect white (Fin 0) (Fin 0) (Fin 4) (Fin 4)])
          Nearest))
       false]
    [ThisUpdate].
Proof.
  unfold example_state. rewrite new_MarqueeSelection_eq. reflexivity.
Qed.

(** C2, as amended: built with width 100, height 50, thickness 2, dash
    4, dashSpace 4 and speed 0.2, the node has its top strip at (-2,-2)
    sized 104 by 2, its bottom strip at (-2,50) sized 104 by 2, its left
    strip at (-2,0) sized 2 by 50 and its right strip at (100,0) sized 2
    by 50; after one [update] the top and right offsets are 0.2 and the
    bottom and left offsets are -0.2, which is 7.8 less one period of
    8. *)
Theorem example_layout_and_offsets :
  let n := this example_state in
  placed Top n (mkGeometry (Fin (-2)) (Fin (-2)) (Fin 104) (Fin 2)) /\
  placed Bottom n (mkGeometry (Fin (-2)) (Fin 50) (Fin 104) (Fin 2)) /\
  placed Left n (mkGeometry (Fin (-2)) (Fin 0) (Fin 2) (Fin 50)) /\
  placed Right n (mkGeometry (Fin 100) (Fin 0) (Fin 2) (Fin 50)) /\
  fst (update example_state) = Returned tt /\
  let n' := this (snd (update example_state)) in
  is_num (offset Top n') (1 # 5) /\
  is_num (offset Bottom n') (- (1 # 5)) /\
  is_num (offset Left n') (- (1 # 5)) /\
  is_num (offset Right n') (1 # 5) /\
  - (1 # 5) == (39 # 5) - 8.
Proof.
  cbv zeta. rewrite example_state_eq.
  repeat split; try reflexivity.
Qed.

(** C2 as worded fails: the bottom offset after one [update] is not
    7.8. *)
Lemma example_claim_fails : ~ example_claim.
Proof.
  unfold example_claim. cbv zeta. rewrite example_state_eq.
  intros (_ & _ & _ & _ & _ & Hbottom & _).
  vm_compute in Hbottom. discriminate Hbottom.
Qed.

(** ** Teardown *)

Lemma destroy_ticker_kept : maintains ticker_kept destroy.
Proof.
  unfold destroy, destroy_strip.
  maintain ticker_kept_refl ticker_kept_trans
    ltac:(first [ apply on_strip_ticker_kept
                | apply the_texture_maintains, ticker_kept_refl
                | intro; reflexivity ]).
Qed.

(** What [destroy] leaves when it returns: no strip, no texture, and a
    node as visible as before. *)
Lemma destroy_returned s s1 :
  destroy s = (Returned tt, s1) ->
  (forall e, strip e (this s1) = None) /\
  _texture (this s1) = None /\
  visible (this s1) = visible (this s).
Proof.
  destruct s as [n texs tk]. destruct n as [v ch de th d ds sp t l r b tx au ct].
  destruct t as [t|]; [|discriminate].
  destruct l as [l|]; [|discriminate].
  destruct r as [r|]; [|discriminate].
  destruct b as [b|]; [|discriminate].
  destruct tx as [tx|]; [|discriminate].
  intro H. lazy in H. injection H as <-. lazy.
  repeat split. intro e. destruct e; reflexivity.
Qed.

(** C3, evaluated on the code: a node built with the defaults registers
    [update] with the shared ticker; [destroy] returns and leaves that
    registration in place (it never touches the ticker, whatever the
    state); the next frame calls [update] on the destroyed node, which
    advances [_currentTime] from 0 to 0.2 and then throws. *)
Theorem destroy_keeps_listener :
  (forall s, ticker (snd (destroy s)) = ticker s) /\
  fst (destroy default_state) = Returned tt /\
  registrations (ticker (snd (destroy default_state))) = 1%nat /\
  ~ deregistered_claim default_state /\
  let s1 := snd (destroy default_state) in
  fst (tick s1) = Threw TypeError /\
  _currentTime (this s1) = Fin 0 /\
  _currentTime (this (snd (tick s1))) =n= Fin (1 # 5).
Proof.
  split; [exact destroy_ticker_kept|].
  assert (E : destroy default_state
              = (Returned tt, snd (destroy default_state)))
    by (vm_compute; reflexivity).
  split; [now rewrite E|].
  split; [vm_compute; reflexivity|].
  split.
  - intro H. specialize (H _ E). vm_compute in H. discriminate H.
  - cbv zeta. split; [|split]; vm_compute; reflexivity.
Qed.

(** C10, as amended: once [destroy] has returned, the four strip
    references and the texture reference are gone; [resize] then throws
    and changes nothing; [update] throws when the node is visible, after
    having advanced [_currentTime] by [speed]; when the node is not
    visible [update] returns normally and changes nothing. *)
Theorem after_destroy (s s1 : State) :
  destroy s = (Returned tt, s1) ->
  (forall e, strip e (this s1) = None) /\
  _texture (this s1) = None /\
  (forall w h, resize w h s1 = (Threw TypeError, s1)) /\
  (visible (this s1) = true ->
   update s1 =
   (Threw TypeError,
    mkState (put_currentTime
               (num_add (_currentTime (this s1)) (speed (this s1)))
               (this s1))
            (textures s1) (ticker s1))) /\
  (visible (this s1) = false -> update s1 = (Returned tt, s1)).
Proof.
  intro H. destruct (destroy_returned s s1 H) as (Hs & Htx & _).
  split; [exact Hs|]. split; [exact Htx|].
  pose proof (Hs Top) as HT. simpl in HT.
  split; [|split].
  - intros w h. unfold resize. run_body.
    unfold on_strip. run_body. rewrite HT. reflexivity.
  - intro V. unfold update. run_body. rewrite V. run_body.
    unfold on_strip. run_body. rewrite HT. reflexivity.
  - apply update_hidden.
Qed.

Lemma after_destroy_witness :
  let s1 := snd (destroy example_state) in
  (forall e, strip e (this s1) = None) /\
  _texture (this s1) = None /\
  (forall w h, resize w h s1 = (Threw TypeError, s1)) /\
  (visible (this s1) = true ->
   update s1 =
   (Threw TypeError,
    mkState (put_currentTime
               (num_add (_currentTime (this s1)) (speed (this s1)))
               (this s1))
            (textures s1) (ticker s1))) /\
  (visible (this s1) = false -> update s1 = (Returned tt, s1)).
Proof.
  apply (after_destroy example_state (snd (destroy example_state))).
  vm_compute. reflexivity.
Defined.

(** C10 as worded fails on a node built hidden: after [destroy],
    [update] returns normally instead of throwing. *)
Lemma after_destroy_claim_fails : ~ after_destroy_claim hidden_state.
Proof.
  intro H.
  assert (E : destroy hidden_state
              = (Returned tt, snd (destroy hidden_state)))
    by (vm_compute; reflexivity).
  destruct (H _ E) as (_ & _ & _ & Hupd).
  vm_compute in Hupd. discriminate Hupd.
Qed.

(** ** Layout *)

(** Replaces every [Qmin] and [Qmax] of the goal by the operand it
    picks, one case at a time. *)
Ltac pick_min a b :=
  let m := fresh "m" in
  let H := fresh "H" in
  destruct (Q.min_spec a b) as [[? H]|[? H]];
  set (m := Qmin a b) in *; clearbody m.

Ltac pick_max a b :=
  let m := fresh "m" in
  let H := fresh "H" in
  destruct (Q.max_spec a b) as [[? H]|[? H]];
  set (m := Qmax a b) in *; clearbody m.

Ltac split_minmax :=
  repeat match goal with
  | |- context [Qmin ?a ?b] => pick_min a b
  | |- context [Qmax ?a ?b] => pick_max a b
  | _ : context [Qmin ?a ?b] |- _ => pick_min a b
  | _ : context [Qmax ?a ?b] |- _ => pick_max a b
  end.





(** On the worked example the binary64 layout is the exact one: every
    sum of integers this small is exact. *)
Example layout_claim64_example : layout_claim64 2 100 50.
Proof.
  unfold layout_claim64. do 3 eexists.
  split; [vm_compute; reflexivity|].
  split; [vm_compute; reflexivity|].
  split; [vm_compute; reflexivity|].
  split.
  - intro e. destruct e; vm_compute; repeat split; reflexivity.
  - eexists. split; [vm_compute; reflexivity|].
    vm_compute. repeat split; reflexivity.
Qed.

(** C8: calling [resize] a second time with the same arguments gives
    the same outcome and leaves the state the first call left, in every
    state; and on nodes made by the constructor that still have their
    strips, the geometry [resize] leaves depends on the thickness, the
    width and the height alone. *)
Theorem resize_idempotent (w h : number) :
  (forall s, resize w h (snd (resize w h s)) = resize w h s) /\
  (forall s1 s2,
     reachable s1 -> reachable s2 ->
     live (this s1) -> live (this s2) ->
     thickness (this s1) = thickness (this s2) ->
     forall e,
       option_map geometry (strip e (this (snd (resize w h s1))))
       = option_map geometry (strip e (this (snd (resize w h s2))))).
Proof.
  split.
  - intros [n texs tk].
    destruct n as [v ch de th d ds sp t l r b tx au ct].
    destruct t as [t|]; [|reflexivity].
    destruct l as [l|]; [|vm_compute; reflexivity].
    destruct r as [r|]; [|vm_compute; reflexivity].
    destruct b as [b|]; vm_compute; reflexivity.
  - intros s1 s2 R1 R2 (t1 & l1 & r1 & b1 & Ht1 & Hl1 & Hr1 & Hb1)
           (t2 & l2 & r2 & b2 & Ht2 & Hl2 & Hr2 & Hb2) Hth e.
    pose proof (reachable_thickness s1 R1) as I1.
    pose proof (reachable_thickness s2 R2) as I2.
    rewrite (resize_live w h s1 t1 l1 r1 b1) by assumption.
    rewrite (resize_live w h s2 t2 l2 r2 b2) by assumption.
    cbv zeta. simpl snd. simpl this. rewrite !strip_put_strip.
    pose proof (I1 e) as J1. pose proof (I2 e) as J2.
    destruct e; simpl; unfold geometry; simpl; f_equal; f_equal;
      try (now rewrite Hth).
    + specialize (J1 t1 Ht1). specialize (J2 t2 Ht2). simpl in *. congruence.
    + specialize (J1 l1 Hl1). specialize (J2 l2 Hl2). simpl in *. congruence.
    + specialize (J1 r1 Hr1). specialize (J2 r2 Hr2). simpl in *. congruence.
    + specialize (J1 b1 Hb1). specialize (J2 b2 Hb2). simpl in *. congruence.
Qed.

(** C9: [resize] changes nothing but the strips' positions and their
    lengths along the edge: [_currentTime], the four tile offsets, the
    texture and the texture store, the listeners of the ticker and
    [_autoUpdate], and the strips' sizes across the edge are what they
    were, whether the call returns or throws. *)
Theorem resize_changes_only_layout (w h : number) (s : State) :
  resize_frame s (snd (resize w h s)).
Proof.
  apply resize_maintains_frame.
Qed.

(** ** The dash texture *)

Lemma Qtrunc_inject_Z (z : Z) : Qtrunc (inject_Z z) = z.
Proof.
  unfold Qtrunc. destruct (Qle_bool 0 (inject_Z z)).
  - apply Qfloor_Z.
  - apply Qceiling_Z.
Qed.

(** A whole size within the range of the attribute is kept as it is. *)
Lemma canvas_size_whole (dflt n : Z) (q : Q) :
  q == inject_Z n ->
  (0 <= n <= 2147483647)%Z ->
  canvas_size dflt (Fin q) = n.
Proof.
  intros Hq Hn. unfold canvas_size, to_unsigned_long.
  rewrite (Qtrunc_comp _ _ Hq), Qtrunc_inject_Z.
  rewrite Z.mod_small by lia.
  destruct (n >? 2147483647)%Z eqn:E; [|reflexivity].
  apply Z.gtb_lt in E. lia.
Qed.

(** A fill that starts at 0 and is [d] pixels long covers the pixels 0
    to [d - 1] fully and no other pixel at all. *)
Lemma span_overlap_whole (q : Q) (d i : Z) :
  q == inject_Z d ->
  (0 <= d)%Z ->
  ((0 <= i < d)%Z -> span_overlap (Fin 0) (Fin q) i == 1) /\
  (~ (0 <= i < d)%Z -> span_overlap (Fin 0) (Fin q) i == 0).
Proof.
  intros Hq Hd. unfold span_overlap.
  pose proof Hd as D. rewrite Zle_Qle in D. change (inject_Z 0) with 0 in D.
  split; intro Hi.
  - assert (I0 : (0 <= i)%Z) by lia.
    rewrite Zle_Qle in I0. change (inject_Z 0) with 0 in I0.
    assert (I1 : (i + 1 <= d)%Z) by lia.
    rewrite Zle_Qle in I1. rewrite inject_Z_plus in I1.
    change (inject_Z 1) with 1 in I1.
    split_minmax; lra.
  - destruct (Z_lt_le_dec i 0) as [Neg|Pos].
    + assert (I1 : (i + 1 <= 0)%Z) by lia.
      rewrite Zle_Qle in I1. rewrite inject_Z_plus in I1.
      change (inject_Z 1) with 1 in I1. change (inject_Z 0) with 0 in I1.
      split_minmax; lra.
    + assert (I1 : (d <= i)%Z) by lia.
      rewrite Zle_Qle in I1.
      split_minmax; lra.
Qed.

(** A fill of alpha 1 that covers a pixel fully leaves its colour,
    opaque, on a transparent canvas; one that misses the pixel leaves it
    transparent. *)
Lemma over_transparent_full (f : FillRect) (i j : Z) :
  alpha (fr_style f) == 1 ->
  coverage f i j == 1 ->
  opaque_pixel (fr_style f) (Some (over f i j transparent)).
Proof.
  intros Ha Hc. unfold opaque_pixel, over. cbv zeta. simpl p_alpha.
  simpl p_red. simpl p_green. simpl p_blue.
  set (a_src := alpha (fr_style f) * coverage f i j).
  assert (S1 : a_src == 1) by (unfold a_src; rewrite Ha, Hc; ring).
  destruct (Qeq_bool (a_src + 0 * (1 - a_src)) 0) eqn:E.
  - apply Qeq_bool_iff in E. rewrite S1 in E. exfalso. lra.
  - simpl. rewrite S1. repeat split; try ring; field.
Qed.

Lemma over_transparent_none (f : FillRect) (i j : Z) :
  coverage f i j == 0 ->
  transparent_pixel (Some (over f i j transparent)).
Proof.
  intros Hc. unfold transparent_pixel, over. cbv zeta. simpl p_alpha.
  set (a_src := alpha (fr_style f) * coverage f i j).
  assert (S0 : a_src == 0) by (unfold a_src; rewrite Hc; ring).
  destruct (Qeq_bool (a_src + 0 * (1 - a_src)) 0) eqn:E.
  - reflexivity.
  - simpl. rewrite S0. ring.
Qed.

(** The pixels of the dash canvas for a whole dash [d] and a colour of
    alpha 1. *)
Lemma dash_canvas_pixels (c : Rgba) (q : Q) (d n i j : Z) :
  q == inject_Z d ->
  (0 <= d)%Z ->
  alpha c == 1 ->
  (0 <= i < n)%Z -> (0 <= j < n)%Z ->
  let cv := mkCanvas n n c [mkFillRect c (Fin 0) (Fin 0) (Fin q) (Fin q)] in
  ((i < d)%Z /\ (j < d)%Z -> opaque_pixel c (canvas_pixel cv i j)) /\
  (~ ((i < d)%Z /\ (j < d)%Z) -> transparent_pixel (canvas_pixel cv i j)).
Proof.
  intros Hq Hd Ha Hi Hj cv.
  assert (On : canvas_pixel cv i j
               = Some (over (mkFillRect c (Fin 0) (Fin 0) (Fin q) (Fin q))
                            i j transparent)).
  { unfold canvas_pixel, cv. simpl cv_width. simpl cv_height.
    replace ((0 <=? i) && (i <? n) && (0 <=? j) && (j <? n))%Z with true;
      [reflexivity|].
    symmetry. rewrite !andb_true_iff, !Z.leb_le, !Z.ltb_lt. lia. }
  rewrite On.
  destruct (span_overlap_whole q d i Hq Hd) as [Xin Xout].
  destruct (span_overlap_whole q d j Hq Hd) as [Yin Yout].
  split.
  - intros [Hid Hjd].
    apply (over_transparent_full
             (mkFillRect c (Fin 0) (Fin 0) (Fin q) (Fin q)) i j Ha).
    unfold coverage. simpl fr_x. simpl fr_y. simpl fr_w. simpl fr_h.
    rewrite Xin, Yin by lia. ring.
  - intro Hout. apply over_transparent_none.
    unfold coverage. simpl fr_x. simpl fr_y. simpl fr_w. simpl fr_h.
    destruct (Z_lt_le_dec i d) as [Hid|Hid].
    + rewrite Yout by lia. ring.
    + rewrite Xout by lia. ring.
Qed.

(** C5, as amended: for a whole [dash = d >= 0] and a whole
    [dashSpace = ds >= 0] with [d + ds] below 2^31 (a sum that the
    program computes exactly), and a configured colour of alpha 1, the
    constructor returns, having added exactly one
    texture to the store; the node and its four strips refer to it; its
    canvas is [d + ds] by [d + ds] pixels, opaque with the configured
    colour on [[0,d) x [0,d)] and transparent everywhere else; it is
    sampled with the nearest neighbour; and no [resize] touches the
    store or the node's texture reference. *)
Theorem texture_generated_once (o : MarqueeSelectionOptions)
        (texs : list Texture) (tk : list Listener) (d ds : Z) :
  default (Fin 2) (o_dash o) =n= Fin (inject_Z d) ->
  default (Fin 2) (o_dashSpace o) =n= Fin (inject_Z ds) ->
  (0 <= d)%Z -> (0 <= ds)%Z -> (d + ds <= 2147483647)%Z ->
  num_add (default (Fin 2) (o_dash o)) (default (Fin 2) (o_dashSpace o))
    =n= Fin (inject_Z (d + ds)) ->
  alpha (default white (o_color o)) == 1 ->
  let made := new_MarqueeSelection o texs tk in
  let n := this (snd made) in
  fst made = Returned tt /\
  exists tx src,
    textures (snd made) = texs ++ [tx] /\
    source tx = Some src /\
    tex_destroyed tx = false /\
    _texture n = Some (length texs) /\
    (forall e, option_map texture (strip e n) = Some (length texs)) /\
    cv_width (resource src) = (d + ds)%Z /\
    cv_height (resource src) = (d + ds)%Z /\
    scaleMode src = Nearest /\
    (forall i j,
       (0 <= i < d + ds)%Z -> (0 <= j < d + ds)%Z ->
       ((i < d)%Z /\ (j < d)%Z ->
        opaque_pixel (default white (o_color o))
                     (canvas_pixel (resource src) i j)) /\
       (~ ((i < d)%Z /\ (j < d)%Z) ->
        transparent_pixel (canvas_pixel (resource src) i j))) /\
    (forall s w h,
       textures (snd (resize w h s)) = textures s /\
       _texture (this (snd (resize w h s))) = _texture (this s)).
Proof.
  intros Hd Hds Hd0 Hds0 Hmax Hsum Ha made n. subst n made.
  rewrite new_MarqueeSelection_eq. cbv zeta.
  destruct (default (Fin 2) (o_dash o)) as [dq|]; [|contradiction].
  destruct (default (Fin 2) (o_dashSpace o)) as [dsq|]; [|contradiction].
  change (dq == inject_Z d) in Hd. change (dsq == inject_Z ds) in Hds.
  set (sum := num_add (Fin dq) (Fin dsq)) in *.
  destruct sum as [sq|]; [|contradiction].
  change (sq == inject_Z (d + ds)) in Hsum.
  rewrite (canvas_size_whole 300 (d + ds) sq Hsum) by lia.
  rewrite (canvas_size_whole 150 (d + ds) sq Hsum) by lia.
  split; [reflexivity|].
  do 2 eexists. split; [reflexivity|].
  split; [reflexivity|]. split; [reflexivity|]. split; [reflexivity|].
  split; [intro e; destruct e; reflexivity|].
  split; [reflexivity|]. split; [reflexivity|]. split; [reflexivity|].
  split.
  - intros i j Hi Hj. simpl resource.
    apply dash_canvas_pixels; assumption.
  - intros s w h.
    destruct (resize_maintains_frame w h s) as (_ & Htx & Hst & _).
    split; assumption.
Qed.

Lemma texture_generated_once_witness :
  let made := new_MarqueeSelection example_options [] [] in
  let n := this (snd made) in
  fst made = Returned tt /\
  exists tx src,
    textures (snd made) = [] ++ [tx] /\
    source tx = Some src /\
    tex_destroyed tx = false /\
    _texture n = Some (length (@nil Texture)) /\
    (forall e, option_map texture (strip e n) = Some (length (@nil Texture))) /\
    cv_width (resource src) = (4 + 4)%Z /\
    cv_height (resource src) = (4 + 4)%Z /\
    scaleMode src = Nearest /\
    (forall i j,
       (0 <= i < 4 + 4)%Z -> (0 <= j < 4 + 4)%Z ->
       ((i < 4)%Z /\ (j < 4)%Z ->
        opaque_pixel (default white (o_color example_options))
                     (canvas_pixel (resource src) i j)) /\
       (~ ((i < 4)%Z /\ (j < 4)%Z) ->
        transparent_pixel (canvas_pixel (resource src) i j))) /\
    (forall s w h,
       textures (snd (resize w h s)) = textures s /\
       _texture (this (snd (resize w h s))) = _texture (this s)).
Proof.
  apply (texture_generated_once example_options [] [] 4 4).
  - reflexivity.
  - reflexivity.
  - lia.
  - lia.
  - lia.
  - reflexivity.
  - reflexivity.
Defined.

(** C5 as worded fails for a dash of 1.5 with a gap of 1: the canvas is
    2 pixels wide, not 2.5. *)
Lemma texture_claim_fails : ~ texture_claim fractional_options.
Proof.
  intro H.
  destruct (H (3 # 2) 1 eq_refl eq_refl) as (tx & src & Htex & Hsrc & Hw & _);
    [lra | lra |].
  vm_compute in Htex. injection Htex as <-.
  simpl in Hsrc. injection Hsrc as <-.
  vm_compute in Hw. discriminate Hw.
Qed.

(** On that canvas the pixel in column 1 of row 0 is half covered: it is
    neither opaque nor transparent. *)
Example fractional_pixel :
  match canvas_pixel
          (mkCanvas 2 2 white
             [mkFillRect white (Fin 0) (Fin 0) (Fin (3 # 2)) (Fin (3 # 2))])
          1 0
  with
  | Some p => p_alpha p == 1 # 2
  | None => False
  end.
Proof. vm_compute. reflexivity. Qed.

(** With [dash = 0] and [dashSpace = 0] the constructor still returns:
    the texture is an empty canvas. *)
Example degenerate_texture :
  fst (new_MarqueeSelection degenerate_options [] []) = Returned tt /\
  map source (textures degenerate_state)
  = [Some (mkTextureSource
             (mkCanvas 0 0 white
                       [mkFillRect white (Fin 0) (Fin 0) (Fin 0) (Fin 0)])
             Nearest)].
Proof.
  unfold degenerate_state. rewrite new_MarqueeSelection_eq.
  split; reflexivity.
Qed.

(** On that node the period is zero and [update] writes [NaN] offsets;
    this is why the results on offsets ask for a positive period. *)
Example degenerate_update :
  fst (update degenerate_state) = Returned tt /\
  forall e, offset e (this (snd (update degenerate_state))) = Some NaN.
Proof.
  unfold degenerate_state. rewrite new_MarqueeSelection_eq.
  split; [reflexivity|]. intro e. destruct e; reflexivity.
Qed.

(** ** Registration with the shared ticker *)

Lemma Ticker_remove_none (t : list Listener) :
  filter is_this (Ticker_remove t) = [].
Proof.
  induction t as [|[|k] t IH]; simpl; trivial.
Qed.

Lemma Ticker_remove_idem (t : list Listener) :
  Ticker_remove (Ticker_remove t) = Ticker_remove t.
Proof.
  induction t as [|[|k] t IH]; simpl; trivial. now rewrite IH.
Qed.

Lemma Ticker_remove_add (t : list Listener) :
  Ticker_remove (Ticker_add ThisUpdate t) = Ticker_remove t.
Proof.
  unfold Ticker_remove, Ticker_add. rewrite filter_app. simpl.
  apply app_nil_r.
Qed.

Lemma registrations_add (t : list Listener) :
  registrations (Ticker_add ThisUpdate t) = S (registrations t).
Proof.
  unfold registrations, Ticker_add. rewrite filter_app, length_app. simpl.
  lia.
Qed.

(** A frame in which [update] is registered once runs it once. *)
Lemma run_listeners_once (t : list Listener) (s : State) :
  run_listeners (Ticker_add ThisUpdate (Ticker_remove t)) s = update s.
Proof.
  unfold Ticker_add.
  induction t as [|[|k] t IH]; simpl.
  - unfold bind, ret. destruct (update s) as [[[]|e] s']; reflexivity.
  - exact IH.
  - exact IH.
Qed.

(** C7: whatever the ticker holds, [set autoUpdate] first removes every
    registration of the node's [update] and then, for [true], adds one.
    Afterwards the callback is registered once for [true] and not at all
    for [false], the other listeners are as before, a frame runs
    [update] exactly once for [true], and assigning the same value again
    changes nothing. *)
Theorem set_autoUpdate_idempotent (v : bool) (s : State) :
  let s' := snd (set_autoUpdate v s) in
  fst (set_autoUpdate v s) = Returned tt /\
  ticker s' = (if v then Ticker_add ThisUpdate (Ticker_remove (ticker s))
               else Ticker_remove (ticker s)) /\
  registrations (ticker s') = (if v then 1%nat else 0%nat) /\
  Ticker_remove (ticker s') = Ticker_remove (ticker s) /\
  get_autoUpdate s' = (Returned v, s') /\
  (v = true -> tick s' = update s') /\
  set_autoUpdate v s' = (Returned tt, s').
Proof.
  cbv zeta. rewrite set_autoUpdate_eq. simpl fst. simpl snd.
  split; [reflexivity|]. split; [reflexivity|].
  simpl ticker.
  split; [|split; [|split; [|split]]].
  - destruct v.
    + rewrite registrations_add. unfold registrations.
      now rewrite Ticker_remove_none.
    + unfold registrations. now rewrite Ticker_remove_none.
  - destruct v.
    + now rewrite Ticker_remove_add, Ticker_remove_idem.
    + apply Ticker_remove_idem.
  - reflexivity.
  - intros ->. unfold tick. simpl ticker. apply run_listeners_once.
  - rewrite set_autoUpdate_eq. simpl.
    destruct v.
    + now rewrite Ticker_remove_add, Ticker_remove_idem.
    + now rewrite Ticker_remove_idem.
Qed.

(** * Further properties of the methods *)

(** ** [update] *)

Lemma update_frame_refl s : update_frame s s.
Proof. unfold update_frame. repeat split; reflexivity. Qed.

Lemma update_frame_trans a b c :
  update_frame a b -> update_frame b c -> update_frame a c.
Proof.
  unfold update_frame.
  intros (A1 & A2 & A3 & A4 & A5 & A6 & A7 & A8 & A9 & A10 & A11 & A12)
         (B1 & B2 & B3 & B4 & B5 & B6 & B7 & B8 & B9 & B10 & B11 & B12).
  repeat split; try congruence;
    destruct (A12 e) as (X & Y & Z & W), (B12 e) as (X' & Y' & Z' & W');
    congruence.
Qed.

(** Changing a strip in a way that keeps its geometry, its texture and
    its flags is within [update]'s frame. *)
Lemma on_strip_update_frame e f :
  (forall sp, geometry (f sp) = geometry sp) ->
  (forall sp, texture (f sp) = texture sp) ->
  (forall sp, roundPixels (f sp) = roundPixels sp) ->
  (forall sp, ts_destroyed (f sp) = ts_destroyed sp) ->
  maintains update_frame (on_strip e f).
Proof.
  intros Hg Ht Hr Hd. apply maintains_on_strip; [apply update_frame_refl|].
  intros s sp E. unfold update_frame. simpl.
  repeat split; try (destruct e; reflexivity);
    rewrite strip_put_strip;
    destruct (Edge_eqb e e0) eqn:Q; trivial;
    apply Edge_eqb_eq in Q; subst e0; rewrite E; simpl;
    now rewrite ?Hg, ?Ht, ?Hr, ?Hd.
Qed.

Lemma put_currentTime_update_frame v :
  maintains update_frame (modify_this (put_currentTime v)).
Proof.
  apply maintains_modify_this. intro s. unfold update_frame. simpl.
  repeat split; destruct e; reflexivity.
Qed.

Lemma update_maintains_frame : maintains update_frame update.
Proof.
  unfold update.
  maintain update_frame_refl update_frame_trans
    ltac:(first [ apply on_strip_update_frame; reflexivity
                | apply put_currentTime_update_frame ]).
Qed.

(** X1: [update] writes nothing but [_currentTime] and the tile
    positions: the strips' positions and sizes, their texture, the
    texture store, the ticker, [_autoUpdate], [visible], the children
    and the readonly numbers are what they were, whether the call
    returns or throws. *)
Theorem update_changes_only_animation (s : State) :
  update_frame s (snd (update s)).
Proof.
  apply update_maintains_frame.
Qed.

(** X2: after [update] on a visible node that has its strips, the right
    offset is the top offset, the left offset is the bottom offset, and
    the bottom offset is the top offset negated, whatever the period. *)
Theorem update_opposite_edges (s : State) :
  visible (this s) = true ->
  live (this s) ->
  exists top bottom,
    let n' := this (snd (update s)) in
    offset Top n' = Some top /\
    offset Right n' = Some top /\
    offset Bottom n' = Some bottom /\
    offset Left n' = Some bottom /\
    bottom =n= num_neg top.
Proof.
  intros Hvis (t & l & r & b & Ht & Hl & Hr & Hb).
  rewrite (update_live s t l r b) by assumption.
  cbv zeta. simpl snd. simpl this.
  do 2 eexists.
  repeat (split; [rewrite !offset_put_strip; reflexivity|]).
  apply num_rem_neg.
Qed.

Lemma update_opposite_edges_witness :
  exists top bottom,
    let n' := this (snd (update example_state)) in
    offset Top n' = Some top /\
    offset Right n' = Some top /\
    offset Bottom n' = Some bottom /\
    offset Left n' = Some bottom /\
    bottom =n= num_neg top.
Proof.
  apply (update_opposite_edges example_state).
  - reflexivity.
  - unfold live. vm_compute. repeat eexists.
Defined.

(** For a positive period every remainder is smaller than the period in
    magnitude. *)
Lemma Qrem_bounded (a p : Q) :
  0 < p -> exists r, Qrem a p = Fin r /\ - p < r /\ r < p.
Proof.
  intro Hp. destruct (Qlt_le_dec a 0) as [Hneg|Hpos].
  - destruct (Qrem_neg p Hp a) as (r & E & L & U & _); [lra|].
    exists r. repeat split; trivial; lra.
  - rewrite (Qrem_nonneg p Hp a Hpos).
    destruct (math_mod_range p Hp a). eexists. split; [reflexivity|]. lra.
Qed.

(** X3: with a positive period and a finite clock, every tile offset
    [update] writes is a finite number strictly between [-period] and
    [period], however large the clock has grown. *)
Theorem update_offsets_bounded (s : State) (t p : Q) (e : Edge) :
  visible (this s) = true ->
  live (this s) ->
  num_add (_currentTime (this s)) (speed (this s)) = Fin t ->
  num_add (dash (this s)) (dashSpace (this s)) = Fin p ->
  0 < p ->
  exists r,
    offset e (this (snd (update s))) = Some (Fin r) /\ - p < r /\ r < p.
Proof.
  intros Hvis (st & sl & sr & sb & Ht & Hl & Hr & Hb) Hnow Hper Hp.
  rewrite (update_live s st sl sr sb) by assumption.
  cbv zeta. simpl snd. simpl this. rewrite Hnow, Hper.
  destruct (Qrem_bounded t p Hp) as (r1 & E1 & B1).
  destruct (Qrem_bounded (- t) p Hp) as (r2 & E2 & B2).
  rewrite !offset_put_strip.
  destruct e; simpl; rewrite ?E1, ?E2; eauto.
Qed.

Lemma update_offsets_bounded_witness :
  exists r,
    offset Bottom (this (snd (update example_state))) = Some (Fin r)
    /\ - (8) < r /\ r < 8.
Proof.
  apply (update_offsets_bounded example_state (1 # 5) 8 Bottom).
  - reflexivity.
  - unfold live. vm_compute. repeat eexists.
  - vm_compute. reflexivity.
  - vm_compute. reflexivity.
  - reflexivity.
Defined.

(** A visible node with its strips is still one after [update]. *)
Lemma update_keeps_live s :
  visible (this s) = true -> live (this s) ->
  fst (update s) = Returned tt /\
  visible (this (snd (update s))) = true /\
  live (this (snd (update s))) /\
  speed (this (snd (update s))) = speed (this s) /\
  dash (this (snd (update s))) = dash (this s) /\
  dashSpace (this (snd (update s))) = dashSpace (this s) /\
  _currentTime (this (snd (update s)))
    = num_add (_currentTime (this s)) (speed (this s)).
Proof.
  intros Hvis (t & l & r & b & Ht & Hl & Hr & Hb).
  rewrite (update_live s t l r b) by assumption.
  cbv zeta. simpl.
  repeat split; trivial. unfold live. simpl. repeat eexists.
Qed.

(** X4: [n] calls of [update] on a visible node that has its strips all
    return and leave in [_currentTime] its start value with [speed]
    added [n] times by the program's own [+], one addition per call: the
    stored clock is never reduced modulo the period.  After at least one
    call the top offset is the remainder of that clock by the period. *)
Theorem updates_accumulate (n : nat) (s : State) :
  visible (this s) = true ->
  live (this s) ->
  fst (updates n s) = Returned tt /\
  _currentTime (this (snd (updates n s)))
  = Nat.iter n (fun clock => num_add clock (speed (this s)))
             (_currentTime (this s)) /\
  (n <> O ->
   offset Top (this (snd (updates n s)))
   = Some (num_rem (_currentTime (this (snd (updates n s))))
                   (num_add (dash (this s)) (dashSpace (this s))))).
Proof.
  revert s. induction n as [|k IH]; intros s Hvis Hlive.
  - simpl. repeat split. congruence.
  - destruct (update_keeps_live s Hvis Hlive)
      as (Hret & Hvis' & Hlive' & Hsp & Hd & Hds & Hct).
    destruct (update s) as [[[]|err] s1] eqn:E;
      simpl in Hret, Hvis', Hlive', Hsp, Hd, Hds, Hct; [|discriminate].
    assert (U : updates (S k) s = updates k s1).
    { simpl. unfold bind. now rewrite E. }
    rewrite U.
    destruct (IH s1 Hvis' Hlive') as (R & C & O).
    split; [exact R|]. split.
    + rewrite C, Hsp, Hct. symmetry.
      exact (Nat.iter_succ_r k number
               (fun clock => num_add clock (speed (this s)))
               (_currentTime (this s))).
    + intros _. destruct k as [|k'].
      * simpl.
        destruct Hlive as (st & sl & sr & sb & Ht & Hl & Hr & Hb).
        assert (E' : s1 = snd (update s)) by now rewrite E.
        rewrite E', (update_live s st sl sr sb) by assumption.
        cbv zeta. simpl snd. simpl this. rewrite !offset_put_strip.
        reflexivity.
      * rewrite O by discriminate. now rewrite Hd, Hds.
Qed.

Lemma updates_accumulate_witness :
  fst (updates 3 example_state) = Returned tt /\
  _currentTime (this (snd (updates 3 example_state)))
  = Nat.iter 3 (fun clock => num_add clock (speed (this example_state)))
             (_currentTime (this example_state)) /\
  (3%nat <> O ->
   offset Top (this (snd (updates 3 example_state)))
   = Some (num_rem (_currentTime (this (snd (updates 3 example_state))))
                   (num_add (dash (this example_state))
                            (dashSpace (this example_state))))).
Proof.
  apply (updates_accumulate 3 example_state).
  - reflexivity.
  - unfold live. vm_compute. repeat eexists.
Defined.

(** ** The frame *)

(** What a list of listeners does to the node is what its
    registrations of [update] do. *)
Lemma run_listeners_updates (ls : list Listener) (s : State) :
  run_listeners ls s = updates (registrations ls) s.
Proof.
  revert s. induction ls as [|[|k] rest IH]; intro s.
  - reflexivity.
  - change (registrations (ThisUpdate :: rest)) with (S (registrations rest)).
    simpl. unfold bind.
    destruct (update s) as [[a|e] s1]; [apply IH|reflexivity].
  - change (registrations (Foreign k :: rest)) with (registrations rest).
    simpl. apply IH.
Qed.

Lemma updates_hidden (n : nat) (s : State) :
  visible (this s) = false -> updates n s = (Returned tt, s).
Proof.
  intro H. induction n as [|k IH]; [reflexivity|].
  simpl. unfold bind. rewrite (update_hidden s H). exact IH.
Qed.

(** X5: a frame leaves everything as it is when the node is hidden,
    however often its [update] is registered and destroyed or not, and
    when its [update] is not registered at all. *)
Theorem tick_idle (s : State) :
  visible (this s) = false \/ registrations (ticker s) = O ->
  tick s = (Returned tt, s).
Proof.
  intros [Hidden|Unregistered]; unfold tick; rewrite run_listeners_updates.
  - now apply updates_hidden.
  - rewrite Unregistered. reflexivity.
Qed.

Lemma tick_idle_witness : tick hidden_state = (Returned tt, hidden_state).
Proof.
  apply (tick_idle hidden_state).
  left. reflexivity.
Defined.

(** ** [resize] and the other methods *)

(** Splits a state into its fields and the four strip references into
    present and absent. *)
Ltac by_strips s :=
  let n := fresh "n" in
  destruct s as [n ? ?];
  destruct n as [? ? ? ? ? ? ? [?|] [?|] [?|] [?|] ? ? ?].

(** X6: the last [resize] wins: resizing to one size and then to another
    gives the outcome and the state of resizing to the second size
    alone, in every state. *)
Theorem resize_last_wins (w1 h1 w2 h2 : number) (s : State) :
  resize w2 h2 (snd (resize w1 h1 s)) = resize w2 h2 s.
Proof.
  by_strips s; vm_compute; reflexivity.
Qed.

(** X7: [resize] and [update] do not disturb each other: in either
    order they leave the same state, in every state and whether or not
    one of them throws. *)
Theorem resize_update_commute (w h : number) (s : State) :
  snd (update (snd (resize w h s))) = snd (resize w h (snd (update s))).
Proof.
  destruct s as [n texs tk].
  destruct n as [[|] ? ? ? ? ? ? [?|] [?|] [?|] [?|] ? ? ?];
    lazy; reflexivity.
Qed.

(** X8: the [width] and [height] options are a first [resize]: building
    a node with any size and resizing it to [w] by [h] leaves the state
    that building it with [width = w] and [height = h] leaves. *)
Theorem constructor_size_is_resize (o : MarqueeSelectionOptions)
        (texs : list Texture) (tk : list Listener) (w h : number) :
  resize w h (snd (new_MarqueeSelection o texs tk))
  = new_MarqueeSelection (with_size w h o) texs tk.
Proof.
  rewrite !new_MarqueeSelection_eq. cbv zeta. simpl snd.
  unfold with_size. simpl default.
  generalize (default (Fin 2) (o_thickness o)) as t.
  generalize (default white (o_color o)) as c.
  generalize (default (Fin 2) (o_dash o)) as d.
  generalize (default (Fin 2) (o_dashSpace o)) as ds.
  generalize (default (Fin (1 # 5)) (o_speed o)) as sp.
  generalize (default (Fin 100) (o_width o)) as w0.
  generalize (default (Fin 100) (o_height o)) as h0.
  generalize (default true (o_autoUpdate o)) as au.
  generalize (default true (o_visible o)) as vis.
  generalize (length texs) as tex.
  intros. lazy -[canvas_size]. reflexivity.
Qed.

(** ** Teardown and the life of a node *)

(** A method that first reads a strip throws at once, and changes
    nothing, when the top strip is gone. *)
Lemma resize_gone w h s :
  _topLine (this s) = None -> resize w h s = (Threw TypeError, s).
Proof.
  intro H. unfold resize. run_body. unfold on_strip. run_body.
  rewrite H. reflexivity.
Qed.

Lemma destroy_gone s :
  _topLine (this s) = None -> destroy s = (Threw TypeError, s).
Proof.
  intro H. unfold destroy, destroy_strip. run_body.
  unfold on_strip. run_body. rewrite H. reflexivity.
Qed.

(** [destroy] on a node that has its strips and its texture. *)
Lemma destroy_live s t l r b h :
  _topLine (this s) = Some t ->
  _leftLine (this s) = Some l ->
  _rightLine (this s) = Some r ->
  _bottomLine (this s) = Some b ->
  _texture (this s) = Some h ->
  destroy s =
  (Returned tt,
   mkState
     (mkMarqueeSelection
        (visible (this s)) [] true
        (thickness (this s)) (dash (this s)) (dashSpace (this s))
        (speed (this s))
        None None None None None
        (_autoUpdate (this s)) (_currentTime (this s)))
     (store_update h Texture_destroy (textures s))
     (ticker s)).
Proof.
  destruct s as [n texs tk]. destruct n. simpl.
  intros -> -> -> -> ->. lazy. reflexivity.
Qed.

(** X9: [destroy] cannot be called twice: once it has returned, a
    second call throws a [TypeError] and changes nothing. *)
Theorem destroy_twice_throws (s s1 : State) :
  destroy s = (Returned tt, s1) ->
  destroy s1 = (Threw TypeError, s1).
Proof.
  intro H. destruct (destroy_returned s s1 H) as (Hs & _).
  apply destroy_gone. exact (Hs Top).
Qed.

Lemma destroy_twice_throws_witness :
  destroy (snd (destroy example_state))
  = (Threw TypeError, snd (destroy example_state)).
Proof.
  apply (destroy_twice_throws example_state (snd (destroy example_state))).
  vm_compute. reflexivity.
Defined.

Lemma store_update_length h f (st : list Texture) :
  length (store_update h f st) = length st.
Proof.
  revert h. induction st as [|x st IH]; intros [|h]; simpl; auto.
Qed.

Lemma store_update_other h f (st : list Texture) i :
  i <> h -> nth_error (store_update h f st) i = nth_error st i.
Proof.
  revert h i. induction st as [|x st IH]; intros [|h] [|i] Hne; simpl;
    trivial; try congruence.
  apply IH. congruence.
Qed.

Lemma store_update_same h f (st : list Texture) :
  nth_error (store_update h f st) h = option_map f (nth_error st h).
Proof.
  revert h. induction st as [|x st IH]; intros [|h]; simpl; auto.
Qed.

Lemma whole_new o texs tk : whole (snd (new_MarqueeSelection o texs tk)).
Proof.
  rewrite new_MarqueeSelection_eq. cbv zeta. unfold whole. simpl.
  do 5 eexists. repeat (split; [reflexivity|]).
  split; [|split; reflexivity].
  rewrite length_app. simpl. lia.
Qed.

Lemma update_whole_or_gone s :
  whole s \/ gone s -> whole (snd (update s)) \/ gone (snd (update s)).
Proof.
  destruct (visible (this s)) eqn:V.
  - intros [W|G].
    + left. destruct W as (h & t & l & r & b & Ht & Hl & Hr & Hb & W).
      rewrite (update_live s t l r b) by assumption.
      cbv zeta. unfold whole. simpl.
      exists h, (set_tile_x
                   (num_rem (num_add (_currentTime (this s)) (speed (this s)))
                            (num_add (dash (this s)) (dashSpace (this s)))) t).
      do 3 eexists. repeat (split; [reflexivity|]). exact W.
    + right. destruct G as (Gs & Gt & Gc & Gd).
      pose proof (Gs Top) as HT. simpl in HT.
      assert (E : update s =
                  (Threw TypeError,
                   mkState (put_currentTime
                              (num_add (_currentTime (this s)) (speed (this s)))
                              (this s))
                           (textures s) (ticker s))).
      { unfold update. run_body. rewrite V. run_body.
        unfold on_strip. run_body. rewrite HT. reflexivity. }
      rewrite E. unfold gone. simpl.
      split; [|auto]. intro e. specialize (Gs e). destruct e; exact Gs.
  - intro H. now rewrite (update_hidden s V).
Qed.

Lemma updates_whole_or_gone n s :
  whole s \/ gone s -> whole (snd (updates n s)) \/ gone (snd (updates n s)).
Proof.
  revert s. induction n as [|k IH]; intros s H; [exact H|].
  simpl. unfold bind.
  pose proof (update_whole_or_gone s H) as H1.
  destruct (update s) as [[a|e] s1]; simpl in H1; [apply IH|]; exact H1.
Qed.

(** X10: no method leaves a node half torn down.  In every state a
    program can reach, either the node has its four strips, all children
    of the node and all drawing from the node's texture, which is in the
    store, and it is not marked destroyed; or it has no strip, no
    texture, no child, and is marked destroyed. *)
Theorem reachable_whole_or_gone (s : State) :
  reachable s -> whole s \/ gone s.
Proof.
  induction 1 as [o texs tk | s c Hs IH].
  - left. apply whole_new.
  - destruct c as [w h| |v|v| |]; simpl run_call.
    + destruct IH as [W|G].
      * left. destruct W as (x & t & l & r & b & Ht & Hl & Hr & Hb & W).
        rewrite (resize_live w h s t l r b) by assumption.
        cbv zeta. unfold whole. simpl.
        exists x. do 4 eexists. repeat (split; [reflexivity|]). exact W.
      * right. destruct G as (Gs & G).
        rewrite resize_gone; [split; assumption | exact (Gs Top)].
    + now apply update_whole_or_gone.
    + rewrite set_autoUpdate_eq. simpl snd.
      destruct IH as [W|G]; [left|right].
      * destruct W as (x & t & l & r & b & W). exists x, t, l, r, b. exact W.
      * destruct G as (Gs & G). split; [|exact G].
        intro e. specialize (Gs e). destruct e; exact Gs.
    + unfold set_visible, modify_this. simpl snd.
      destruct IH as [W|G]; [left|right].
      * destruct W as (x & t & l & r & b & W). exists x, t, l, r, b. exact W.
      * destruct G as (Gs & G). split; [|exact G].
        intro e. specialize (Gs e). destruct e; exact Gs.
    + unfold tick. rewrite run_listeners_updates.
      now apply updates_whole_or_gone.
    + right. destruct IH as [W|G].
      * destruct W as (x & t & l & r & b & Ht & Hl & Hr & Hb & Hx & W).
        rewrite (destroy_live s t l r b x) by assumption.
        unfold gone. simpl. repeat split. intro e. destruct e; reflexivity.
      * destruct G as (Gs & G).
        rewrite destroy_gone; [split; assumption | exact (Gs Top)].
Qed.

Lemma reachable_whole_or_gone_witness :
  whole example_state \/ gone example_state.
Proof.
  apply (reachable_whole_or_gone example_state).
  apply reach_new.
Defined.

(** X11: on a node a program has built, a returning [destroy] destroys
    exactly the node's own texture: the store keeps its length, the
    entry the node referred to is marked destroyed and has lost its
    source, and every other entry is untouched. *)
Theorem destroy_own_texture_only (s s1 : State) :
  reachable s ->
  destroy s = (Returned tt, s1) ->
  exists h,
    _texture (this s) = Some h /\
    nth_error (textures s1) h = Some (mkTexture None true) /\
    length (textures s1) = length (textures s) /\
    forall i, i <> h -> nth_error (textures s1) i = nth_error (textures s) i.
Proof.
  intros Hreach Hret.
  destruct (reachable_whole_or_gone s Hreach) as [W|G].
  - destruct W as (h & t & l & r & b & Ht & Hl & Hr & Hb & Hx & _ & _ & _ & _
                   & Hin & _).
    rewrite (destroy_live s t l r b h) in Hret by assumption.
    injection Hret as <-. simpl textures.
    destruct (nth_error (textures s) h) as [tx|] eqn:E.
    + exists h. split; [exact Hx|].
      split; [now rewrite store_update_same, E|].
      split; [apply store_update_length|].
      intros i Hi. now apply store_update_other.
    + apply nth_error_None in E. lia.
  - destruct G as (Gs & _).
    rewrite destroy_gone in Hret; [discriminate | exact (Gs Top)].
Qed.

Lemma destroy_own_texture_only_witness :
  exists h,
    _texture (this example_state) = Some h /\
    nth_error (textures (snd (destroy example_state))) h
      = Some (mkTexture None true) /\
    length (textures (snd (destroy example_state)))
      = length (textures example_state) /\
    forall i, i <> h ->
      nth_error (textures (snd (destroy example_state))) i
      = nth_error (textures example_state) i.
Proof.
  apply (destroy_own_texture_only example_state
           (snd (destroy example_state))).
  - apply reach_new.
  - vm_compute. reflexivity.
Defined.

(** ** Registration *)

Lemma destroy_keeps_autoUpdate s :
  _autoUpdate (this (snd (destroy s))) = _autoUpdate (this s)
  /\ ticker (snd (destroy s)) = ticker s.
Proof.
  split; [|apply destroy_ticker_kept].
  destruct s as [n texs tk].
  destruct n as [? ? ? ? ? ? ? [?|] [?|] [?|] [?|] [?|] ? ?]; reflexivity.
Qed.

Lemma updates_keep_registration n s :
  _autoUpdate (this (snd (updates n s))) = _autoUpdate (this s)
  /\ ticker (snd (updates n s)) = ticker s.
Proof.
  revert s. induction n as [|k IH]; intro s; [split; reflexivity|].
  simpl. unfold bind.
  pose proof (update_maintains_frame s) as F.
  destruct F as (_ & Ftk & _ & Fau & _).
  destruct (update s) as [[a|e] s1]; simpl in *.
  - destruct (IH s1) as [A B]. split; congruence.
  - split; assumption.
Qed.

(** X12: in every state a program can reach, the shared ticker holds
    the node's [update] exactly once when [_autoUpdate] is [true] and
    not at all when it is [false]; no sequence of calls registers it
    twice, and [destroy] does not remove it. *)
Theorem reachable_registered_as_set (s : State) :
  reachable s -> registered_as_set s.
Proof.
  unfold registered_as_set.
  induction 1 as [o texs tk | s c Hs IH].
  - rewrite new_MarqueeSelection_eq. cbv zeta. simpl.
    destruct (default true (o_autoUpdate o)).
    + rewrite registrations_add. unfold registrations.
      now rewrite Ticker_remove_none.
    + unfold registrations. now rewrite Ticker_remove_none.
  - destruct c as [w h| |v|v| |]; simpl run_call.
    + destruct (resize_maintains_frame w h s) as (_ & _ & _ & Htk & Hau & _).
      now rewrite Htk, Hau.
    + destruct (update_maintains_frame s) as (_ & Htk & _ & Hau & _).
      now rewrite Htk, Hau.
    + rewrite set_autoUpdate_eq. simpl. destruct v.
      * rewrite registrations_add. unfold registrations.
        now rewrite Ticker_remove_none.
      * unfold registrations. now rewrite Ticker_remove_none.
    + exact IH.
    + unfold tick. rewrite run_listeners_updates.
      destruct (updates_keep_registration (registrations (ticker s)) s)
        as [Hau Htk].
      now rewrite Htk, Hau.
    + destruct (destroy_keeps_autoUpdate s) as [Hau Htk].
      now rewrite Htk, Hau.
Qed.

Lemma reachable_registered_as_set_witness : registered_as_set example_state.
Proof.
  apply (reachable_registered_as_set example_state).
  apply reach_new.
Defined.

(** ** The border as a set of points *)





(** ** Edge cases *)

(** X14: when [dash + dashSpace] is zero, [update] on a visible node
    that has its strips returns normally and writes [NaN] into all four
    tile offsets, whatever the clock. *)
Theorem update_zero_period (s : State) (p : Q) :
  visible (this s) = true ->
  live (this s) ->
  num_add (dash (this s)) (dashSpace (this s)) = Fin p ->
  p == 0 ->
  fst (update s) = Returned tt /\
  forall e, offset e (this (snd (update s))) = Some NaN.
Proof.
  intros Hvis (t & l & r & b & Ht & Hl & Hr & Hb) Hper Hp.
  rewrite (update_live s t l r b) by assumption.
  cbv zeta. simpl fst. simpl snd. simpl this. rewrite Hper.
  split; [reflexivity|].
  assert (Z : forall a, num_rem a (Fin p) = NaN).
  { intros [a|]; simpl; trivial. unfold Qrem.
    apply Qeq_bool_iff in Hp. now rewrite Hp. }
  intro e. rewrite !offset_put_strip.
  destruct e; simpl; now rewrite Z.
Qed.

Lemma update_zero_period_witness :
  fst (update degenerate_state) = Returned tt /\
  forall e, offset e (this (snd (update degenerate_state))) = Some NaN.
Proof.
  apply (update_zero_period degenerate_state (0 + 0)).
  - reflexivity.
  - unfold live. vm_compute. repeat eexists.
  - reflexivity.
  - reflexivity.
Defined.

Lemma whole_live s : whole s -> live (this s).
Proof.
  intros (h & t & l & r & b & Ht & Hl & Hr & Hb & _).
  exists t, l, r, b. repeat split; assumption.
Qed.

Lemma gone_not_live s : gone s -> ~ live (this s).
Proof.
  intros (Gs & _) (t & l & r & b & Ht & _).
  pose proof (Gs Top) as K. simpl in K. congruence.
Qed.

(** X15: in every state a program can reach, [resize] and [destroy]
    return exactly when the node still has its four strips, and throw a
    [TypeError] otherwise; [update] returns exactly when the node is
    hidden or still has its four strips. *)
Theorem methods_return_iff_live (s : State) :
  reachable s ->
  (forall w h, fst (resize w h s) = Returned tt <-> live (this s)) /\
  (fst (destroy s) = Returned tt <-> live (this s)) /\
  (fst (update s) = Returned tt
   <-> visible (this s) = false \/ live (this s)).
Proof.
  intro Hreach.
  destruct (reachable_whole_or_gone s Hreach) as [W|G].
  - pose proof (whole_live s W) as L.
    destruct W as (x & t & l & r & b & Ht & Hl & Hr & Hb & Hx & _).
    assert (R : forall w h, fst (resize w h s) = Returned tt).
    { intros w h. now rewrite (resize_live w h s t l r b). }
    assert (D : fst (destroy s) = Returned tt).
    { now rewrite (destroy_live s t l r b x). }
    assert (U : fst (update s) = Returned tt).
    { destruct (visible (this s)) eqn:V.
      - now rewrite (update_live s t l r b).
      - now rewrite (update_hidden s V). }
    repeat split; auto.
  - pose proof (gone_not_live s G) as NL.
    destruct G as (Gs & _). pose proof (Gs Top) as HT. simpl in HT.
    assert (R : forall w h, fst (resize w h s) = Threw TypeError).
    { intros w h. now rewrite (resize_gone w h s HT). }
    assert (D : fst (destroy s) = Threw TypeError).
    { now rewrite (destroy_gone s HT). }
    split; [|split].
    + intros w h. rewrite R. split; [discriminate | contradiction].
    + rewrite D. split; [discriminate | contradiction].
    + destruct (visible (this s)) eqn:V.
      * assert (U : fst (update s) = Threw TypeError).
        { unfold update. run_body. rewrite V. run_body.
          unfold on_strip. run_body. rewrite HT. reflexivity. }
        rewrite U. split; [discriminate|].
        intros [K|K]; [discriminate | contradiction].
      * rewrite (update_hidden s V). split; auto.
Qed.

Lemma methods_return_iff_live_witness :
  (forall w h, fst (resize w h example_state) = Returned tt
               <-> live (this example_state)) /\
  (fst (destroy example_state) = Returned tt <-> live (this example_state)) /\
  (fst (update example_state) = Returned tt
   <-> visible (this example_state) = false \/ live (this example_state)).
Proof.
  apply (methods_return_iff_live example_state).
  apply reach_new.
Defined.
